(** * Sentinel coverage viewer: reference dates, phase resolution, date scan

    A shallow embedding of the pure helpers of [app.py]
    ([parse_date_ymd], [extract_dates_from_properties],
    [feature_has_target_date], [same_phase], [get_reference_date], the
    reference-date part of [load_reference_dates_and_gdfs]) and of the
    control flow of the coverage read-out at the end of the script.

    Conventions.
    - A Python [str] is a Rocq [string]; its characters are the code points
      below 256, and the character classes [\d], [\w] of [re] are those of
      Python's Unicode tables on that range.
    - A [datetime] is always UTC-aware in this program.  It is represented by
      its proleptic Gregorian ordinal ([toordinal()]) and the microseconds
      elapsed since midnight; [date.min] has ordinal 1 and [date.max] has
      ordinal 3652059.
    - Python exceptions are values of the error monad [result]. *)

From Stdlib Require Import ZArith Lia List Bool Ascii String Sorting.Sorted
  Sorting.Permutation.
Import ListNotations.

Local Open Scope Z_scope.

(** ** Exceptions and the error monad *)

Inductive exn : Type :=
| ZeroDivisionError
| OverflowError
| ValueError
| IndexError.

Inductive result (A : Type) : Type :=
| Ok (a : A)
| Raise (e : exn).

Arguments Ok {A} a.
Arguments Raise {A} e.

Definition bind {A B : Type} (m : result A) (k : A -> result B) : result B :=
  match m with
  | Ok a => k a
  | Raise e => Raise e
  end.

Notation "x <- m ;; k" := (bind m (fun x => k))
  (at level 61, m at next level, right associativity).

(** [try: ... except Exception: return None] *)
Definition except_none {A : Type} (m : result A) : option A :=
  match m with
  | Ok a => Some a
  | Raise _ => None
  end.

(** A list comprehension [[x for x in l if f x]] whose test may raise. *)
Fixpoint filterM {A : Type} (f : A -> result bool) (l : list A)
  : result (list A) :=
  match l with
  | [] => Ok []
  | x :: tl =>
      b <- f x ;;
      rest <- filterM f tl ;;
      Ok (if b then x :: rest else rest)
  end.

(** Python's [%] on integers: the sign of the divisor, as [Z.modulo]. *)
Definition py_mod (a b : Z) : result Z :=
  if b =? 0 then Raise ZeroDivisionError else Ok (a mod b).

(** ** Calendar dates *)

Module Calendar.

Definition MINYEAR : Z := 1.
Definition MAXYEAR : Z := 9999.
Definition MAXORDINAL : Z := 3652059.

Definition is_leap (y : Z) : bool :=
  (y mod 4 =? 0) && (negb (y mod 100 =? 0) || (y mod 400 =? 0)).

Definition days_in_month (y m : Z) : Z :=
  if m =? 2 then (if is_leap y then 29 else 28)
  else if (m =? 4) || (m =? 6) || (m =? 9) || (m =? 11) then 30
  else 31.

Definition days_before_year (y : Z) : Z :=
  let y1 := y - 1 in
  y1 * 365 + y1 / 4 - y1 / 100 + y1 / 400.

Definition DAYS_BEFORE_MONTH : list Z :=
  [0; 31; 59; 90; 120; 151; 181; 212; 243; 273; 304; 334].

Definition days_before_month (y m : Z) : Z :=
  nth (Z.to_nat (m - 1)) DAYS_BEFORE_MONTH 0
  + (if (2 <? m) && is_leap y then 1 else 0).

Definition ymd2ord (y m d : Z) : Z :=
  days_before_year y + days_before_month y m + d.

(** The checks of the [date] constructor. *)
Definition check_date_fields (y m d : Z) : result unit :=
  if negb ((MINYEAR <=? y) && (y <=? MAXYEAR)) then Raise ValueError
  else if negb ((1 <=? m) && (m <=? 12)) then Raise ValueError
  else if negb ((1 <=? d) && (d <=? days_in_month y m)) then Raise ValueError
  else Ok tt.

End Calendar.

(** ** UTC datetimes *)

Record datetime : Type := mkDatetime {
  ordinal : Z;      (* [self.date().toordinal()] *)
  micros : Z        (* microseconds since midnight *)
}.

Definition MICROS_PER_DAY : Z := 86400000000.

Definition valid_datetime (d : datetime) : Prop :=
  1 <= ordinal d <= Calendar.MAXORDINAL /\ 0 <= micros d < MICROS_PER_DAY.

(** [datetime(y, m, d, tzinfo=timezone.utc)] *)
Definition utc_midnight (y m d : Z) : datetime :=
  mkDatetime (Calendar.ymd2ord y m d) 0.

(** [a <= b] and [a < b] on aware datetimes of one zone. *)
Definition dt_leb (a b : datetime) : bool :=
  (ordinal a <? ordinal b)
  || ((ordinal a =? ordinal b) && (micros a <=? micros b)).

Definition dt_ltb (a b : datetime) : bool :=
  (ordinal a <? ordinal b)
  || ((ordinal a =? ordinal b) && (micros a <? micros b)).

Definition dt_le (a b : datetime) : Prop := dt_leb a b = true.
Definition dt_lt (a b : datetime) : Prop := dt_ltb a b = true.

Definition datetime_eq_dec (a b : datetime) : {a = b} + {a <> b}.
Proof. decide equality; apply Z.eq_dec. Defined.

(** [(a.date() - b.date()).days] *)
Definition date_diff_days (a b : datetime) : Z := ordinal a - ordinal b.

(** [d - timedelta(days=n)]: the time of day is kept, the date must stay
    within [date.min .. date.max]. *)
Definition sub_days (d : datetime) (n : Z) : result datetime :=
  let o := ordinal d - n in
  if (0 <? o) && (o <=? Calendar.MAXORDINAL)
  then Ok (mkDatetime o (micros d))
  else Raise OverflowError.

(** [.replace(hour=0, minute=0, second=0, microsecond=0, tzinfo=utc)] *)
Definition replace_midnight_utc (d : datetime) : datetime :=
  mkDatetime (ordinal d) 0.

(** ** Sorting, [min] and [max] on datetimes *)

(** [list.sort()] is a stable sort driven by [<]; on a list it is modelled
    by stable insertion, which yields the same list as any stable sort. *)
Fixpoint insert_sorted (x : datetime) (l : list datetime) : list datetime :=
  match l with
  | [] => [x]
  | y :: tl => if dt_ltb y x then y :: insert_sorted x tl else x :: l
  end.

Fixpoint py_sort (l : list datetime) : list datetime :=
  match l with
  | [] => []
  | x :: tl => insert_sorted x (py_sort tl)
  end.

(** [min(l)]: the first smallest item; [ValueError] on an empty list. *)
Definition py_min (l : list datetime) : result datetime :=
  match l with
  | [] => Raise ValueError
  | x :: tl => Ok (fold_left (fun m y => if dt_ltb y m then y else m) tl x)
  end.

(** [max(l, default=dflt)]: the first largest item, [dflt] when [l] is
    empty. *)
Definition py_max_default (l : list datetime) (dflt : datetime) : datetime :=
  match l with
  | [] => dflt
  | x :: tl => fold_left (fun m y => if dt_ltb m y then y else m) tl x
  end.

(** ** The phase resolver *)

Definition same_phase (chosen ref : datetime) (period_days : Z)
  : result bool :=
  r <- py_mod (date_diff_days chosen ref) period_days ;;
  Ok (r =? 0).

Definition get_reference_date (chosen : datetime)
    (reference_dates : list datetime) (period_days : Z)
  : result (option datetime) :=
  match reference_dates with
  | [] => Ok None
  | _ :: _ =>
      matches <- filterM (fun r => same_phase chosen r period_days)
                   reference_dates ;;
      match matches with
      | _ :: _ =>
          let matches := py_sort matches in
          match find (fun r => dt_leb r chosen) (rev matches) with
          | Some r => Ok (Some r)
          | None =>
              match matches with
              | m0 :: _ => Ok (Some m0)
              | [] => Raise IndexError
              end
          end
      | [] =>
          dflt <- py_min reference_dates ;;
          let anchor :=
            py_max_default
              (filter (fun r => dt_leb r chosen) reference_dates) dflt in
          shift <- py_mod (date_diff_days chosen anchor) period_days ;;
          shifted <- sub_days chosen shift ;;
          Ok (Some (replace_midnight_utc shifted))
      end
  end.

(** ** Text: character classes and the date pattern *)

Local Open Scope string_scope.

Definition code (c : ascii) : N := N_of_ascii c.

Definition in_range (lo hi : N) (c : ascii) : bool :=
  ((lo <=? code c) && (code c <=? hi))%N.

(** [\d]: the decimal digits; below 256 these are [0-9]. *)
Definition is_digit (c : ascii) : bool := in_range 48 57 c.

(** [\w]: alphanumeric characters and the underscore.  Below 256 the
    alphanumerics are the ASCII letters and digits, the letters of the
    Latin-1 block and its numeric signs (superscripts and fractions). *)
Definition is_word (c : ascii) : bool :=
  is_digit c || in_range 65 90 c || in_range 97 122 c || (code c =? 95)%N
  || (code c =? 170)%N || in_range 178 179 c || (code c =? 181)%N
  || in_range 185 186 c || in_range 188 190 c
  || in_range 192 214 c || in_range 216 246 c || in_range 248 255 c.

Definition is_word_opt (c : option ascii) : bool :=
  match c with
  | Some c => is_word c
  | None => false
  end.

(** [\b] between the character before the position and the one at it; a
    missing character (start or end of the text) counts as a non-word. *)
Definition word_boundary (before at_pos : option ascii) : bool :=
  xorb (is_word_opt before) (is_word_opt at_pos).

Definition first_char (s : string) : option ascii :=
  match s with
  | EmptyString => None
  | String c _ => Some c
  end.

(** One attempt of [DATE_RE = \b(20\d{2}-\d{2}-\d{2})\b] at the start of
    [s], where [prev] is the character just before [s] in the scanned text.
    The result is group 1. *)
Definition DATE_RE_match (prev : option ascii) (s : string) : option string :=
  match s with
  | String c0 (String c1 (String c2 (String c3 (String c4 (String c5
      (String c6 (String c7 (String c8 (String c9 rest))))))))) =>
      if word_boundary prev (Some c0)
         && (c0 =? "2")%char && (c1 =? "0")%char
         && is_digit c2 && is_digit c3
         && (c4 =? "-")%char
         && is_digit c5 && is_digit c6
         && (c7 =? "-")%char
         && is_digit c8 && is_digit c9
         && word_boundary (Some c9) (first_char rest)
      then Some (substring 0 10 s)
      else None
  | _ => None
  end.

(** The left-to-right scan of [DATE_RE.findall]: an attempt at every
    position, and after a hit the scan resumes just after it, which the
    counter [skip] of characters still inside the last hit expresses. *)
Fixpoint findall_from (prev : option ascii) (skip : nat) (s : string)
  : list string :=
  match s with
  | EmptyString => []
  | String c rest =>
      match skip with
      | S k => findall_from (Some c) k rest
      | O =>
          match DATE_RE_match prev s with
          | Some hit => hit :: findall_from (Some c) 9 rest
          | None => findall_from (Some c) 0 rest
          end
      end
  end.

Definition DATE_RE_findall (v : string) : list string :=
  findall_from None 0 v.

(** ** [datetime.strptime(s, "%Y-%m-%d")] *)

Definition digit_val (c : ascii) : Z := Z.of_N (code c) - 48.

(** [%m] is [1[0-2]|0[1-9]|[1-9]]: the ways it can match a prefix of [r],
    in the order the regex engine tries them, each with the rest. *)
Definition month_alts (r : string) : list (Z * string) :=
  (match r with
   | String a (String b r') =>
       if (a =? "1")%char && in_range 48 50 b
       then [(10 + digit_val b, r')] else []
   | _ => []
   end)
  ++ (match r with
      | String a (String b r') =>
          if (a =? "0")%char && in_range 49 57 b
          then [(digit_val b, r')] else []
      | _ => []
      end)
  ++ (match r with
      | String a r' => if in_range 49 57 a then [(digit_val a, r')] else []
      | _ => []
      end).

(** [%d] is [3[0-1]|[1-2]\d|0[1-9]|[1-9]| [1-9]]. *)
Definition day_alts (r : string) : list (Z * string) :=
  (match r with
   | String a (String b r') =>
       if (a =? "3")%char && in_range 48 49 b
       then [(30 + digit_val b, r')] else []
   | _ => []
   end)
  ++ (match r with
      | String a (String b r') =>
          if in_range 49 50 a && is_digit b
          then [(10 * digit_val a + digit_val b, r')] else []
      | _ => []
      end)
  ++ (match r with
      | String a (String b r') =>
          if (a =? "0")%char && in_range 49 57 b
          then [(digit_val b, r')] else []
      | _ => []
      end)
  ++ (match r with
      | String a r' => if in_range 49 57 a then [(digit_val a, r')] else []
      | _ => []
      end)
  ++ (match r with
      | String a (String b r') =>
          if (a =? " ")%char && in_range 49 57 b
          then [(digit_val b, r')] else []
      | _ => []
      end).

(** After [%Y-]: every way to match [%m-%d], in backtracking order. *)
Definition month_day_matches (r : string) : list (Z * Z * string) :=
  flat_map
    (fun mr : Z * string =>
       match snd mr with
       | String c r2 =>
           if (c =? "-")%char
           then map (fun dr : Z * string => (fst mr, fst dr, snd dr))
                  (day_alts r2)
           else []
       | EmptyString => []
       end)
    (month_alts r).

(** The format regex is matched at the start of [s]; the first match in
    backtracking order is taken, text left after it is an error, and the
    fields must make a date.  The result carries [tzinfo=utc]. *)
Definition strptime_ymd (s : string) : result datetime :=
  match s with
  | String y1 (String y2 (String y3 (String y4 (String c r)))) =>
      if is_digit y1 && is_digit y2 && is_digit y3 && is_digit y4
         && (c =? "-")%char
      then
        match month_day_matches r with
        | [] => Raise ValueError
        | (m, d, EmptyString) :: _ =>
            let y := 1000 * digit_val y1 + 100 * digit_val y2
                     + 10 * digit_val y3 + digit_val y4 in
            _ <- Calendar.check_date_fields y m d ;;
            Ok (utc_midnight y m d)
        | (_, _, String _ _) :: _ => Raise ValueError
        end
      else Raise ValueError
  | _ => Raise ValueError
  end.

Definition parse_date_ymd (s : string) : option datetime :=
  except_none (strptime_ymd (substring 0 10 s)).

(** ** Feature properties *)

(** A JSON value of a property map: [None], a [str], or any other value,
    which is kept as the text that [str(v)] gives for it. *)
Inductive pyval : Type :=
| PNone
| PStr (s : string)
| POther (text : string).

(** A property map in insertion order. *)
Definition props : Type := list (string * pyval).

(** [(props or {}).values()] *)
Definition values (p : option props) : list pyval :=
  match p with
  | None => []
  | Some d => map snd d
  end.

(** The text scanned for a value that is not [None]. *)
Definition text_of (v : pyval) : string :=
  match v with
  | PNone => ""
  | PStr s => s
  | POther t => t
  end.

Fixpoint dates_of_hits (hits : list string) : list datetime :=
  match hits with
  | [] => []
  | hit :: tl =>
      match parse_date_ymd hit with
      | Some dt => dt :: dates_of_hits tl
      | None => dates_of_hits tl
      end
  end.

Fixpoint extract_dates_from_values (vs : list pyval) : list datetime :=
  match vs with
  | [] => []
  | PNone :: tl => extract_dates_from_values tl
  | v :: tl =>
      dates_of_hits (DATE_RE_findall (text_of v))
      ++ extract_dates_from_values tl
  end.

Definition extract_dates_from_properties (p : option props)
  : list datetime :=
  extract_dates_from_values (values p).

Fixpoint values_have_target_date (vs : list pyval) (target_ymd : string)
  : bool :=
  match vs with
  | [] => false
  | PNone :: tl => values_have_target_date tl target_ymd
  | v :: tl =>
      if existsb (fun hit => hit =? target_ymd) (DATE_RE_findall (text_of v))
      then true
      else values_have_target_date tl target_ymd
  end.

Definition feature_has_target_date (p : option props) (target_ymd : string)
  : bool :=
  values_have_target_date (values p) target_ymd.

(** ** Reference dates of a plan *)

(** [set(dates)] keeps one item of each value; the order in which a set is
    iterated is not fixed, the sort that follows does not depend on it. *)
Definition py_set (l : list datetime) : list datetime :=
  nodup datetime_eq_dec l.

(** [sorted(set(dates))] where [dates] collects the dates of every
    feature's properties ([f.get("properties", {})], in feature order). *)
Definition reference_dates_of (feats : list (option props))
  : list datetime :=
  py_sort (py_set (flat_map extract_dates_from_properties feats)).

(** ** The coverage read-out of the script

    Geometry, areas and floating point belong to the GIS libraries; the
    script's control flow is embedded over an interface for them. *)

Class Geometry (G : Type) : Type := {
  (** [GeoDataFrame.unary_union] of the rows' geometries *)
  unary_union : list G -> G;
  (** [a.union(b)] *)
  union : G -> G -> G;
  (** [a.intersects(b)] *)
  intersects : G -> G -> bool;
  (** the body of the final [try] on the AOI union and the coverage union:
      the two areas, their ratio times 100 rounded to 2 places, as the text
      shown; [Raise] stands for any exception in it *)
  coverage_percent_text : G -> G -> result string
}.

(** A row of a plan: the raw feature's ["properties"] and its geometry
    (row [i] of the frame is feature [i] of the raw list). *)
Record feature (G : Type) : Type := mkFeature {
  properties : option props;
  geometry : G
}.

Arguments mkFeature {G} properties geometry.
Arguments properties {G} f.
Arguments geometry {G} f.

Record satellite (G : Type) : Type := mkSatellite {
  sat_name : string;
  ref_day : option string;          (* [refs.get(sat)] *)
  plan : list (feature G)
}.

Arguments mkSatellite {G} sat_name ref_day plan.
Arguments sat_name {G} s.
Arguments ref_day {G} s.
Arguments plan {G} s.

(** What the satellite loop updates: [coverage_union] and the layers added
    to the map. *)
Record map_state (G : Type) : Type := mkMapState {
  coverage_union : option G;
  layers : list (string * list (feature G))
}.

Arguments mkMapState {G} coverage_union layers.
Arguments coverage_union {G} m.
Arguments layers {G} m.

Section CoverageScript.

Context {G : Type} `{Geometry G}.

(** [AOI_GDF is not None and not AOI_GDF.empty], with the AOI rows. *)
Definition aoi_rows (aoi : option (list G)) : option (list G) :=
  match aoi with
  | Some (g :: tl) => Some (g :: tl)
  | _ => None
  end.

(** One turn of [for sat, gdf in GDFS.items()]. *)
Definition satellite_step (aoi : option (list G)) (st : map_state G)
    (sat : satellite G) : map_state G :=
  match ref_day sat with
  | None => st
  | Some day =>
      if (day =? "") || (match plan sat with [] => true | _ => false end)
      then st
      else
        let sub :=
          filter (fun f => feature_has_target_date (properties f) day)
            (plan sat) in
        match sub with
        | [] => st
        | _ :: _ =>
            let sub :=
              match aoi_rows aoi with
              | Some rows =>
                  filter (fun f => intersects (geometry f) (unary_union rows))
                    sub
              | None => sub
              end in
            match sub with
            | [] => st
            | _ :: _ =>
                let cu :=
                  match aoi_rows aoi with
                  | Some _ =>
                      match coverage_union st with
                      | None => Some (unary_union (map geometry sub))
                      | Some u =>
                          Some (union u (unary_union (map geometry sub)))
                      end
                  | None => coverage_union st
                  end in
                mkMapState cu (layers st ++ [(sat_name sat, sub)])
            end
        end
  end.

Definition satellite_loop (aoi : option (list G)) (sats : list (satellite G))
  : map_state G :=
  fold_left (satellite_step aoi) sats (mkMapState None []).

(** The final [if AOI_GDF is not None and coverage_union is not None]: the
    text shown, or [None] when nothing is shown. *)
Definition coverage_readout (aoi : option (list G))
    (sats : list (satellite G)) : option string :=
  match aoi, coverage_union (satellite_loop aoi sats) with
  | Some rows, Some cu =>
      except_none (coverage_percent_text (unary_union rows) cu)
  | _, _ => None
  end.

End CoverageScript.

(** A grid instance of the interface, to run the script on: a geometry is a
    list of cells, and cell 0 marks a geometry on which the area
    computation fails. *)
Definition cells_meet (a b : list nat) : bool :=
  existsb (fun x => existsb (Nat.eqb x) b) a.

#[local] Instance grid_geometry : Geometry (list nat) := {
  unary_union := @List.concat nat;
  union := @List.app nat;
  intersects := cells_meet;
  coverage_percent_text := fun aoi cov =>
    if existsb (Nat.eqb 0) cov then Raise ValueError
    else match aoi with
         | [] => Raise ZeroDivisionError
         | _ :: _ => Ok "covered"
         end
}.

(** ** Words of the specification, for comparison with the code *)

(** [t] occurs in [s] as a substring. *)
Fixpoint contains (t s : string) : bool :=
  prefix t s
  || match s with
     | EmptyString => false
     | String _ rest => contains t rest
     end.

(** The text [20dd-dd-dd], d a decimal digit, and nothing else. *)
Definition date_shape (h : string) : bool :=
  match h with
  | String c0 (String c1 (String c2 (String c3 (String c4 (String c5
      (String c6 (String c7 (String c8 (String c9 EmptyString))))))))) =>
      (c0 =? "2")%char && (c1 =? "0")%char && is_digit c2 && is_digit c3
      && (c4 =? "-")%char && is_digit c5 && is_digit c6
      && (c7 =? "-")%char && is_digit c8 && is_digit c9
  | _ => false
  end.

(** A text of ten characters [20dd-dd-dd] followed by [rest]. *)
Definition date_text (c2 c3 c5 c6 c8 c9 : ascii) (rest : string) : string :=
  String "2" (String "0" (String c2 (String c3 (String "-" (String c5
    (String c6 (String "-" (String c8 (String c9 rest))))))))).

(** The decimal digits below 256. *)
Definition decimal_digits : list ascii :=
  ["0"; "1"; "2"; "3"; "4"; "5"; "6"; "7"; "8"; "9"]%char.

(** The character before position [i] of [s], where [prev] is the one
    before [s] itself, if any. *)
Definition char_before (prev : option ascii) (s : string) (i : nat)
  : option ascii :=
  match i with
  | O => prev
  | S j => get j s
  end.

(** [h] is the date-shaped text at position [i] of [s], with no word
    character just before it and none just after it; [prev] is the
    character before [s]. *)
Definition occurs_from (prev : option ascii) (s : string) (i : nat)
    (h : string) : Prop :=
  substring i 10 s = h
  /\ date_shape h = true
  /\ is_word_opt (char_before prev s i) = false
  /\ is_word_opt (get (i + 10) s) = false.

(** The same in a whole property text [v]. *)
Definition occurs_at (v : string) (i : nat) (h : string) : Prop :=
  occurs_from None v i h.

(** The year, month and day fields of a date-shaped text. *)
Definition field (h : string) (i n : nat) : Z :=
  fold_left (fun acc c => 10 * acc + digit_val c)
    (list_ascii_of_string (substring i n h)) 0.

Definition year_of (h : string) : Z := field h 0 4.
Definition month_of (h : string) : Z := field h 5 2.
Definition day_of (h : string) : Z := field h 8 2.

(** A satellite contributes to the coverage: the AOI is present and not
    empty, the satellite has a reference day, and some feature of its plan
    both carries that day and intersects the AOI. *)
Definition contributes {G : Type} `{Geometry G} (aoi : option (list G))
    (sat : satellite G) : Prop :=
  exists day rows,
    ref_day sat = Some day
    /\ (aoi = Some rows /\ rows <> [])
    /\ exists f, In f (plan sat)
                 /\ feature_has_target_date (properties f) day = true
                 /\ intersects (geometry f) (unary_union rows) = true.

(** The date in R that the fallback rule anchors on: the latest one that is
    [<= chosen], or the minimum of R when none is. *)
Definition is_anchor (chosen : datetime) (R : list datetime)
    (a : datetime) : Prop :=
  In a R
  /\ ((exists r, In r R /\ dt_le r chosen) ->
      dt_le a chosen /\ forall r, In r R -> dt_le r chosen -> dt_le r a)
  /\ ((forall r, In r R -> ~ dt_le r chosen) ->
      forall r, In r R -> dt_le a r).

(** ** The two rules of the resolver, named

    [get_reference_date] is the primary rule on the same-phase dates when
    there are some and the fallback rule otherwise
    ([get_reference_date_unfold] below). *)

Local Open Scope Z_scope.

(** The test the comprehension applies when the period is not zero. *)
Definition in_phase_b (chosen : datetime) (p : Z) (r : datetime) : bool :=
  date_diff_days chosen r mod p =? 0.

(** The primary rule, on the list of same-phase dates. *)
Definition primary_rule (chosen : datetime) (matches : list datetime)
  : result (option datetime) :=
  match find (fun r => dt_leb r chosen) (rev (py_sort matches)) with
  | Some r => Ok (Some r)
  | None =>
      match py_sort matches with
      | m0 :: _ => Ok (Some m0)
      | [] => Raise IndexError
      end
  end.

(** The fallback rule. *)
Definition fallback_rule (chosen : datetime) (R : list datetime) (p : Z)
  : result (option datetime) :=
  dflt <- py_min R ;;
  let anchor :=
    py_max_default (filter (fun r => dt_leb r chosen) R) dflt in
  shift <- py_mod (date_diff_days chosen anchor) p ;;
  shifted <- sub_days chosen shift ;;
  Ok (Some (replace_midnight_utc shifted)).

(** ** [strftime("%Y-%m-%d")] and the reference day of the script

    The date fields of an ordinal, as [date.fromordinal] computes them
    ([_ord2ymd] of the datetime module), and their text as the C library
    prints it: two digits for the month and the day, the year as a plain
    decimal number (no zeros before a year below 1000). *)

Module Fromordinal.

Definition DI400Y : Z := 146097.
Definition DI100Y : Z := 36524.
Definition DI4Y : Z := 1461.

Definition DAYS_IN_MONTH : list Z :=
  [31; 28; 31; 30; 31; 30; 31; 31; 30; 31; 30; 31].

Definition ord2ymd (n : Z) : Z * Z * Z :=
  let n := n - 1 in
  let n400 := n / DI400Y in
  let n := n mod DI400Y in
  let year := n400 * 400 + 1 in
  let n100 := n / DI100Y in
  let n := n mod DI100Y in
  let n4 := n / DI4Y in
  let n := n mod DI4Y in
  let n1 := n / 365 in
  let n := n mod 365 in
  let year := year + n100 * 100 + n4 * 4 + n1 in
  if (n1 =? 4) || (n100 =? 4) then (year - 1, 12, 31)
  else
    let leapyear := (n1 =? 3) && (negb (n4 =? 24) || (n100 =? 3)) in
    let month := Z.shiftr (n + 50) 5 in
    let preceding :=
      nth (Z.to_nat (month - 1)) Calendar.DAYS_BEFORE_MONTH 0
      + (if (2 <? month) && leapyear then 1 else 0) in
    if n <? preceding
    then
      let month := month - 1 in
      let preceding :=
        preceding
        - (nth (Z.to_nat (month - 1)) DAYS_IN_MONTH 0
           + (if (month =? 2) && leapyear then 1 else 0)) in
      (year, month, n - preceding + 1)
    else (year, month, n - preceding + 1).

End Fromordinal.

Definition digit_char (k : Z) : ascii := ascii_of_N (Z.to_N (48 + k)).

Definition pad2 (n : Z) : string :=
  String (digit_char (n / 10)) (String (digit_char (n mod 10)) EmptyString).

(** The decimal digits of [n], at most [width] of them. *)
Fixpoint decimal_text (width : nat) (n : Z) : string :=
  match width with
  | O => EmptyString
  | S w =>
      ((if (n <? 10)%Z then EmptyString else decimal_text w (n / 10)%Z)
       ++ String (digit_char (n mod 10)%Z) EmptyString)%string
  end.

Definition format_ymd (y m d : Z) : string :=
  (decimal_text 4 y ++ "-" ++ pad2 m ++ "-" ++ pad2 d)%string.

(** [dt.strftime("%Y-%m-%d")] *)
Definition strftime_ymd (dt : datetime) : string :=
  match Fromordinal.ord2ymd (ordinal dt) with
  | (y, m, d) => format_ymd y m d
  end.

(** [refs[sat]]: [ref_dt.strftime("%Y-%m-%d") if ref_dt else None] for the
    date the resolver gives. *)
Definition reference_day (chosen : datetime) (dates : list datetime)
    (period_days : Z) : result (option string) :=
  ref_dt <- get_reference_date chosen dates period_days ;;
  Ok (match ref_dt with
      | Some r => Some (strftime_ymd r)
      | None => None
      end).

(** [keep_idxs]: the positions of the raw features that carry the day. *)
Definition keep_idxs (feats : list (option props)) (ref_day : string)
  : list nat :=
  map fst
    (filter (fun entry => feature_has_target_date (snd entry) ref_day)
       (combine (seq 0 (List.length feats)) feats)).

(** [gdf[gdf["feat_idx"].isin(idxs)]]: the rows whose position is in
    [idxs], in row order. *)
Definition rows_isin {A : Type} (idxs : list nat) (rows : list A) : list A :=
  map snd
    (filter (fun entry => existsb (Nat.eqb (fst entry)) idxs)
       (combine (seq 0 (List.length rows)) rows)).

(** The days from 2000-01-01 to 2099-12-31, by ordinal, and the checks run
    over them. *)
Fixpoint z_range (lo : Z) (len : nat) : list Z :=
  match len with
  | O => []
  | S k => lo :: z_range (lo + 1) k
  end.

Definition century_ordinals : list Z :=
  z_range 730120 (Z.to_nat 36525).

Definition toordinal_round_trip_ok (n : Z) : bool :=
  match Fromordinal.ord2ymd n with
  | (y, m, d) =>
      (2000 <=? y) && (y <=? 2099)
      && match Calendar.check_date_fields y m d with
         | Ok _ => Calendar.ymd2ord y m d =? n
         | Raise _ => false
         end
  end.

Definition fromordinal_round_trip_ok (y m d : Z) : bool :=
  match Calendar.check_date_fields y m d with
  | Ok _ =>
      match Fromordinal.ord2ymd (Calendar.ymd2ord y m d) with
      | (y', m', d') => (y' =? y) && (m' =? m) && (d' =? d)
      end
  | Raise _ => true
  end.


(** ** The satellite loop in one expression, for comparison *)

Section CoverageWords.

Context {G : Type} `{Geometry G}.

(** The features of a satellite that carry its reference day and, when a
    non-empty AOI is present, intersect it. *)
Definition layer_features (aoi : option (list G)) (sat : satellite G)
  : list (feature G) :=
  match ref_day sat with
  | None => []
  | Some day =>
      filter
        (fun f =>
           feature_has_target_date (properties f) day
           && match aoi_rows aoi with
              | Some rows => intersects (geometry f) (unary_union rows)
              | None => true
              end)
        (plan sat)
  end.

(** One layer for each satellite that has such features, in the order of
    the satellites. *)
Definition expected_layers (aoi : option (list G))
    (sats : list (satellite G)) : list (string * list (feature G)) :=
  flat_map
    (fun sat =>
       match layer_features aoi sat with
       | [] => []
       | f :: tl => [(sat_name sat, f :: tl)]
       end)
    sats.

(** The union of some geometries onto a union so far, from left to
    right. *)
Definition union_onto (cu : option G) (gs : list G) : option G :=
  fold_left
    (fun acc g =>
       Some match acc with
            | None => g
            | Some u => union u g
            end)
    gs cu.

End CoverageWords.

(** * Properties *)

Local Open Scope list_scope.
Local Open Scope Z_scope.

Create HintDb dates.

(** ** The order on datetimes *)

Lemma dt_leb_spec (a b : datetime) :
  dt_leb a b = true <->
  ordinal a < ordinal b \/ (ordinal a = ordinal b /\ micros a <= micros b).
Proof. unfold dt_leb. lia. Qed.

Lemma dt_ltb_spec (a b : datetime) :
  dt_ltb a b = true <->
  ordinal a < ordinal b \/ (ordinal a = ordinal b /\ micros a < micros b).
Proof. unfold dt_ltb. lia. Qed.

Lemma dt_ltb_false (a b : datetime) : dt_ltb a b = false <-> dt_le b a.
Proof.
  unfold dt_le. rewrite dt_leb_spec, <- not_true_iff_false, dt_ltb_spec. lia.
Qed.

Lemma dt_le_refl (a : datetime) : dt_le a a.
Proof. apply dt_leb_spec. lia. Qed.

Lemma dt_le_trans (a b c : datetime) : dt_le a b -> dt_le b c -> dt_le a c.
Proof. unfold dt_le. rewrite !dt_leb_spec. lia. Qed.

Lemma dt_le_antisym (a b : datetime) : dt_le a b -> dt_le b a -> a = b.
Proof.
  unfold dt_le. rewrite !dt_leb_spec. destruct a, b; simpl.
  intros. f_equal; lia.
Qed.

Lemma dt_le_total (a b : datetime) : dt_le a b \/ dt_le b a.
Proof. unfold dt_le. rewrite !dt_leb_spec. lia. Qed.

Lemma dt_lt_le (a b : datetime) : dt_lt a b -> dt_le a b.
Proof. unfold dt_lt, dt_le. rewrite dt_leb_spec, dt_ltb_spec. lia. Qed.

Lemma dt_le_neq_lt (a b : datetime) : dt_le a b -> a <> b -> dt_lt a b.
Proof.
  unfold dt_lt, dt_le. rewrite dt_leb_spec, dt_ltb_spec.
  destruct a as [oa ta], b as [ob tb]; simpl. intros Hle Hne.
  destruct (Z.eq_dec ta tb); [|lia].
  destruct (Z.eq_dec oa ob); [subst; congruence | lia].
Qed.

Lemma not_dt_le (a b : datetime) : ~ dt_le a b -> dt_le b a.
Proof. destruct (dt_le_total a b); tauto. Qed.

#[local] Hint Resolve dt_le_refl dt_le_trans dt_lt_le not_dt_le : dates.

(** ** [list.sort()]: a sorted permutation *)

Lemma insert_sorted_perm (x : datetime) (l : list datetime) :
  Permutation (x :: l) (insert_sorted x l).
Proof.
  induction l as [|y tl IH]; simpl; [reflexivity|].
  destruct (dt_ltb y x); [|reflexivity].
  rewrite perm_swap. now constructor.
Qed.

Lemma py_sort_perm (l : list datetime) : Permutation l (py_sort l).
Proof.
  induction l as [|x tl IH]; simpl; [constructor|].
  rewrite <- insert_sorted_perm. now constructor.
Qed.

Lemma py_sort_In (l : list datetime) (x : datetime) :
  In x (py_sort l) <-> In x l.
Proof.
  split; apply Permutation_in;
    [apply Permutation_sym|]; apply py_sort_perm.
Qed.

Lemma insert_sorted_sorted (x : datetime) (l : list datetime) :
  StronglySorted dt_le l -> StronglySorted dt_le (insert_sorted x l).
Proof.
  induction 1 as [|y tl Hs IH Hall]; simpl.
  - repeat constructor.
  - destruct (dt_ltb y x) eqn:E.
    + constructor; [exact IH|].
      apply Forall_forall. intros z Hz.
      apply (Permutation_in _ (Permutation_sym (insert_sorted_perm x tl))) in Hz.
      destruct Hz as [<-|Hz]; [now apply dt_lt_le|].
      rewrite Forall_forall in Hall. auto.
    + apply dt_ltb_false in E.
      constructor; [now constructor|].
      constructor; [exact E|].
      eapply Forall_impl; [|exact Hall]. eauto with dates.
Qed.

Lemma py_sort_sorted (l : list datetime) : StronglySorted dt_le (py_sort l).
Proof.
  induction l; simpl; [constructor | now apply insert_sorted_sorted].
Qed.

Lemma sorted_app_left {A : Type} (R : A -> A -> Prop) (l1 l2 : list A)
    (a : A) :
  StronglySorted R (l1 ++ a :: l2) -> Forall (fun x => R x a) l1.
Proof.
  induction l1 as [|x l1 IH]; simpl; intros Hs; [constructor|].
  inversion Hs as [|? ? Hs' Hall]; subst.
  constructor; [|auto].
  rewrite Forall_forall in Hall. apply Hall, in_elt.
Qed.

Lemma find_split {A : Type} (f : A -> bool) (l : list A) (r : A) :
  find f l = Some r ->
  exists l1 l2, l = l1 ++ r :: l2 /\ f r = true
                /\ forall x, In x l1 -> f x = false.
Proof.
  induction l as [|x tl IH]; simpl; [discriminate|].
  destruct (f x) eqn:E.
  - intros [= <-]. exists [], tl. simpl. tauto.
  - intros Hf. destruct (IH Hf) as (l1 & l2 & -> & Hr & Hl1).
    exists (x :: l1), l2. simpl. repeat split; auto.
    intros y [<-|Hy]; auto.
Qed.

(** The scan of [reversed(matches)] on a sorted list stops at the greatest
    item that passes the test. *)
Lemma find_rev_sorted (f : datetime -> bool) (l : list datetime)
    (r : datetime) :
  StronglySorted dt_le l ->
  find f (rev l) = Some r ->
  In r l /\ f r = true /\ forall x, In x l -> f x = true -> dt_le x r.
Proof.
  intros Hs Hf.
  destruct (find_split _ _ _ Hf) as (l1 & l2 & Hrev & Hr & Hl1).
  assert (Hl : l = rev l2 ++ r :: rev l1).
  { rewrite <- (rev_involutive l), Hrev, rev_app_distr. simpl.
    now rewrite <- app_assoc. }
  split; [rewrite Hl; apply in_elt|].
  split; [exact Hr|].
  intros x Hx Hfx. rewrite Hl in Hx, Hs.
  apply in_app_or in Hx. destruct Hx as [Hx|[<-|Hx]].
  - apply sorted_app_left in Hs. rewrite Forall_forall in Hs. auto.
  - apply dt_le_refl.
  - apply in_rev in Hx. rewrite (Hl1 x Hx) in Hfx. discriminate.
Qed.

Lemma sorted_head_least (x : datetime) (l : list datetime) :
  StronglySorted dt_le (x :: l) -> forall y, In y (x :: l) -> dt_le x y.
Proof.
  intros Hs y [<-|Hy]; [apply dt_le_refl|].
  inversion Hs as [|? ? _ Hall]; subst.
  rewrite Forall_forall in Hall. auto.
Qed.

(** ** [min], [max] and the comprehension of the resolver *)

Lemma fold_min_spec (tl : list datetime) (x : datetime) :
  let m := fold_left (fun m y => if dt_ltb y m then y else m) tl x in
  In m (x :: tl) /\ forall r, In r (x :: tl) -> dt_le m r.
Proof.
  revert x. induction tl as [|y tl IH]; intros x; simpl.
  - split; [now left|]. intros r [<-|[]]. apply dt_le_refl.
  - destruct (IH (if dt_ltb y x then y else x)) as [Hin Hle].
    split.
    + destruct Hin as [Hin|Hin]; [|now auto].
      rewrite <- Hin. destruct (dt_ltb y x); auto.
    + intros r Hr.
      assert (Hm : dt_le (if dt_ltb y x then y else x) x
                   /\ dt_le (if dt_ltb y x then y else x) y).
      { destruct (dt_ltb y x) eqn:E.
        - split; [now apply dt_lt_le | apply dt_le_refl].
        - split; [apply dt_le_refl | now apply dt_ltb_false]. }
      destruct Hm as [Hx Hy].
      destruct Hr as [<-|[<-|Hr]].
      * eapply dt_le_trans; [apply Hle; now left | exact Hx].
      * eapply dt_le_trans; [apply Hle; now left | exact Hy].
      * apply Hle. now right.
Qed.

Lemma fold_max_spec (tl : list datetime) (x : datetime) :
  let m := fold_left (fun m y => if dt_ltb m y then y else m) tl x in
  In m (x :: tl) /\ forall r, In r (x :: tl) -> dt_le r m.
Proof.
  revert x. induction tl as [|y tl IH]; intros x; simpl.
  - split; [now left|]. intros r [<-|[]]. apply dt_le_refl.
  - destruct (IH (if dt_ltb x y then y else x)) as [Hin Hle].
    split.
    + destruct Hin as [Hin|Hin]; [|now auto].
      rewrite <- Hin. destruct (dt_ltb x y); auto.
    + intros r Hr.
      assert (Hm : dt_le x (if dt_ltb x y then y else x)
                   /\ dt_le y (if dt_ltb x y then y else x)).
      { destruct (dt_ltb x y) eqn:E.
        - split; [now apply dt_lt_le | apply dt_le_refl].
        - split; [apply dt_le_refl | now apply dt_ltb_false]. }
      destruct Hm as [Hx Hy].
      destruct Hr as [<-|[<-|Hr]].
      * eapply dt_le_trans; [exact Hx | apply Hle; now left].
      * eapply dt_le_trans; [exact Hy | apply Hle; now left].
      * apply Hle. now right.
Qed.

Lemma py_min_spec (R : list datetime) :
  R <> [] ->
  exists m, py_min R = Ok m /\ In m R /\ forall r, In r R -> dt_le m r.
Proof.
  destruct R as [|x tl]; [congruence|]. intros _.
  eexists. split; [reflexivity|]. apply fold_min_spec.
Qed.

(** [max([r for r in R if r <= chosen], default=min(R))] is the anchor the
    specification describes. *)
Lemma anchor_spec (chosen : datetime) (R : list datetime) (m : datetime) :
  In m R -> (forall r, In r R -> dt_le m r) ->
  is_anchor chosen R
    (py_max_default (filter (fun r => dt_leb r chosen) R) m).
Proof.
  intros Hm Hmin. unfold py_max_default.
  destruct (filter (fun r => dt_leb r chosen) R) as [|x tl] eqn:E.
  - assert (Hnone : forall r, In r R -> ~ dt_le r chosen).
    { intros r Hr Hle.
      assert (Hin : In r (filter (fun r => dt_leb r chosen) R))
        by (apply filter_In; auto).
      rewrite E in Hin. destruct Hin. }
    split; [exact Hm|]. split.
    + intros (r & Hr & Hle). now apply Hnone in Hle.
    + intros _. exact Hmin.
  - destruct (fold_max_spec tl x) as [Hin Hmax].
    rewrite <- E in Hin, Hmax. apply filter_In in Hin.
    destruct Hin as [HinR Hle].
    split; [exact HinR|]. split.
    + intros _. split; [exact Hle|].
      intros r Hr Hrc. apply Hmax, filter_In. auto.
    + intros Hnone. now apply Hnone in Hle.
Qed.

Lemma py_mod_ok (a p : Z) : p <> 0 -> py_mod a p = Ok (a mod p).
Proof. unfold py_mod. intros Hp. destruct (Z.eqb_spec p 0); congruence. Qed.

Lemma same_phase_ok (chosen r : datetime) (p : Z) :
  p <> 0 -> same_phase chosen r p = Ok (in_phase_b chosen p r).
Proof. intros Hp. unfold same_phase. now rewrite py_mod_ok. Qed.

Lemma filterM_same_phase (chosen : datetime) (R : list datetime) (p : Z) :
  p <> 0 ->
  filterM (fun r => same_phase chosen r p) R
  = Ok (filter (in_phase_b chosen p) R).
Proof.
  intros Hp. induction R as [|x tl IH]; simpl; [reflexivity|].
  rewrite same_phase_ok, IH by assumption. simpl.
  now destruct (in_phase_b chosen p x).
Qed.

Lemma get_reference_date_unfold (chosen : datetime) (R : list datetime)
    (p : Z) :
  p <> 0 -> R <> [] ->
  get_reference_date chosen R p
  = match filter (in_phase_b chosen p) R with
    | _ :: _ => primary_rule chosen (filter (in_phase_b chosen p) R)
    | [] => fallback_rule chosen R p
    end.
Proof.
  intros Hp HR. destruct R as [|x tl]; [congruence|].
  unfold get_reference_date. rewrite filterM_same_phase by assumption.
  cbn [bind]. destruct (filter (in_phase_b chosen p) (x :: tl)); reflexivity.
Qed.

Lemma primary_rule_spec (chosen : datetime) (ms : list datetime) :
  ms <> [] ->
  exists res,
    primary_rule chosen ms = Ok (Some res)
    /\ In res ms
    /\ ((exists r, In r ms /\ dt_le r chosen) ->
        dt_le res chosen
        /\ forall r, In r ms -> dt_le r chosen -> dt_le r res)
    /\ ((forall r, In r ms -> ~ dt_le r chosen) ->
        forall r, In r ms -> dt_le res r).
Proof.
  intros Hne. unfold primary_rule.
  pose proof (py_sort_sorted ms) as Hs.
  destruct (find (fun r => dt_leb r chosen) (rev (py_sort ms))) as [r|] eqn:E.
  - apply find_rev_sorted in E; [|exact Hs].
    destruct E as (Hin & Hle & Hmax). apply (proj1 (py_sort_In _ _)) in Hin.
    exists r. split; [reflexivity|]. split; [exact Hin|]. split.
    + intros _. split; [exact Hle|].
      intros x Hx Hxc. apply Hmax; [now apply py_sort_In | exact Hxc].
    + intros Hnone. now apply Hnone in Hle.
  - assert (Hnone : forall x, In x ms -> ~ dt_le x chosen).
    { intros x Hx Hle. apply (proj2 (py_sort_In _ _)), in_rev in Hx.
      apply (find_none _ _ E) in Hx. unfold dt_le in Hle. congruence. }
    destruct (py_sort ms) as [|m0 tl] eqn:Es.
    + destruct ms as [|x ms']; [congruence|].
      assert (Hx : In x (py_sort (x :: ms'))) by (apply py_sort_In; now left).
      rewrite Es in Hx. destruct Hx.
    + exists m0.
      assert (Hm0 : In m0 ms) by (apply py_sort_In; rewrite Es; now left).
      split; [reflexivity|]. split; [exact Hm0|]. split.
      * intros (x & Hx & Hle). now apply Hnone in Hle.
      * intros _ r Hr. apply (sorted_head_least _ _ Hs).
        rewrite <- Es. now apply py_sort_In.
Qed.

(** ** The phase test *)

Lemma same_phase_true_iff (chosen r : datetime) (p : Z) :
  p <> 0 ->
  (same_phase chosen r p = Ok true <-> in_phase_b chosen p r = true).
Proof.
  intros Hp. rewrite same_phase_ok by assumption.
  split; [now intros [= ->] | now intros ->].
Qed.

Lemma same_phase_not_true (chosen r : datetime) (p : Z) :
  p <> 0 ->
  (same_phase chosen r p <> Ok true <-> in_phase_b chosen p r = false).
Proof.
  intros Hp. rewrite same_phase_true_iff by assumption.
  apply not_true_iff_false.
Qed.

Lemma in_matches (chosen : datetime) (R : list datetime) (p : Z)
    (r : datetime) :
  p <> 0 ->
  (In r (filter (in_phase_b chosen p) R)
   <-> In r R /\ same_phase chosen r p = Ok true).
Proof.
  intros Hp. now rewrite filter_In, same_phase_true_iff.
Qed.

(** C5: for a period [p > 0], [same_phase a b p] never raises; it is true
    exactly when the difference in calendar days between [a] and [b] is
    congruent to 0 modulo [p] (is a multiple of [p]); and the times of day
    of the two arguments play no part. *)
Theorem same_phase_congruence (a b : datetime) (p ta tb : Z) :
  0 < p ->
  same_phase a b p = Ok ((ordinal a - ordinal b) mod p =? 0)
  /\ (same_phase a b p = Ok true <-> (p | ordinal a - ordinal b))
  /\ same_phase (mkDatetime (ordinal a) ta) (mkDatetime (ordinal b) tb) p
     = same_phase a b p.
Proof.
  intros Hp. assert (Hp0 : p <> 0) by lia.
  split; [now apply same_phase_ok|]. split.
  - rewrite same_phase_true_iff by assumption. unfold in_phase_b.
    rewrite Z.eqb_eq, Z.mod_divide by assumption. reflexivity.
  - rewrite !same_phase_ok by assumption. reflexivity.
Qed.

Lemma same_phase_congruence_witness :
  same_phase (utc_midnight 2024 1 25) (utc_midnight 2024 1 1) 12
  = Ok ((ordinal (utc_midnight 2024 1 25) - ordinal (utc_midnight 2024 1 1))
          mod 12 =? 0)
  /\ (same_phase (utc_midnight 2024 1 25) (utc_midnight 2024 1 1) 12
      = Ok true
      <-> (12 | ordinal (utc_midnight 2024 1 25)
                - ordinal (utc_midnight 2024 1 1)))
  /\ same_phase
       (mkDatetime (ordinal (utc_midnight 2024 1 25)) 3600000000)
       (mkDatetime (ordinal (utc_midnight 2024 1 1)) 86399999999) 12
     = same_phase (utc_midnight 2024 1 25) (utc_midnight 2024 1 1) 12.
Proof.
  apply (same_phase_congruence (utc_midnight 2024 1 25)
           (utc_midnight 2024 1 1) 12 3600000000 86399999999).
  lia.
Defined.

(** ** The primary rule *)

(** C4: when some date of R is in the same phase as the chosen date, the
    resolver returns a same-phase date of R: the latest same-phase date
    that is [<= chosen] when there is one (so no same-phase date
    [<= chosen] lies after the result), and the earliest same-phase date
    when every same-phase date is after the chosen date. *)
Theorem get_reference_date_same_phase (chosen : datetime)
    (R : list datetime) (p : Z) :
  0 < p ->
  (exists r, In r R /\ same_phase chosen r p = Ok true) ->
  exists res,
    get_reference_date chosen R p = Ok (Some res)
    /\ In res R
    /\ same_phase chosen res p = Ok true
    /\ ((exists r, In r R /\ same_phase chosen r p = Ok true
                   /\ dt_le r chosen) ->
        dt_le res chosen
        /\ forall r, In r R -> same_phase chosen r p = Ok true ->
                     dt_le r chosen -> dt_le r res)
    /\ ((forall r, In r R -> same_phase chosen r p = Ok true ->
                   ~ dt_le r chosen) ->
        forall r, In r R -> same_phase chosen r p = Ok true ->
                  dt_le res r).
Proof.
  intros Hp (r0 & Hr0 & Hph0). assert (Hp0 : p <> 0) by lia.
  assert (HR : R <> []) by (intros ->; destruct Hr0).
  rewrite get_reference_date_unfold by assumption.
  assert (Hin0 : In r0 (filter (in_phase_b chosen p) R))
    by (apply in_matches; auto).
  destruct (filter (in_phase_b chosen p) R) as [|m ms] eqn:E;
    [destruct Hin0|].
  rewrite <- E in *.
  assert (Hne : filter (in_phase_b chosen p) R <> [])
    by (rewrite E; discriminate).
  destruct (primary_rule_spec chosen _ Hne) as (res & Hres & Hin & Hle & Hgt).
  apply in_matches in Hin; [|assumption]. destruct Hin as [HinR Hph].
  exists res. split; [exact Hres|]. split; [exact HinR|].
  split; [exact Hph|]. split.
  - intros (r & Hr & Hphr & Hrc).
    destruct Hle as [Hc Hmax].
    { exists r. split; [apply in_matches; auto | exact Hrc]. }
    split; [exact Hc|].
    intros x Hx Hphx Hxc. apply Hmax; [apply in_matches; auto | exact Hxc].
  - intros Hnone x Hx Hphx. apply Hgt.
    + intros y Hy. apply in_matches in Hy; [|assumption].
      destruct Hy. auto.
    + apply in_matches; auto.
Qed.

Lemma get_reference_date_same_phase_witness :
  exists res,
    get_reference_date (utc_midnight 2024 1 25)
      [utc_midnight 2024 1 1; utc_midnight 2024 1 13;
       utc_midnight 2024 2 6; utc_midnight 2024 1 14] 12 = Ok (Some res)
    /\ In res [utc_midnight 2024 1 1; utc_midnight 2024 1 13;
               utc_midnight 2024 2 6; utc_midnight 2024 1 14]
    /\ same_phase (utc_midnight 2024 1 25) res 12 = Ok true.
Proof.
  destruct (get_reference_date_same_phase (utc_midnight 2024 1 25)
              [utc_midnight 2024 1 1; utc_midnight 2024 1 13;
               utc_midnight 2024 2 6; utc_midnight 2024 1 14] 12)
    as (res & Hres & Hin & Hph & _).
  - lia.
  - exists (utc_midnight 2024 1 1). split; [simpl; auto | reflexivity].
  - exists res. auto.
Defined.

(** ** The fallback rule *)

Lemma no_matches (chosen : datetime) (R : list datetime) (p : Z) :
  p <> 0 ->
  (forall r, In r R -> same_phase chosen r p <> Ok true) ->
  filter (in_phase_b chosen p) R = [].
Proof.
  intros Hp Hno.
  destruct (filter (in_phase_b chosen p) R) as [|m ms] eqn:E; [reflexivity|].
  assert (Hm : In m (filter (in_phase_b chosen p) R)) by (rewrite E; now left).
  apply in_matches in Hm; [|assumption]. destruct Hm as [Hm Hph].
  now apply Hno in Hph.
Qed.

Lemma is_anchor_exists (chosen : datetime) (R : list datetime) :
  R <> [] -> exists a, is_anchor chosen R a.
Proof.
  intros HR. destruct (py_min_spec R HR) as (m & _ & Hm & Hmin).
  eexists. now apply anchor_spec with (m := m).
Qed.

Lemma is_anchor_unique (chosen : datetime) (R : list datetime)
    (a b : datetime) :
  is_anchor chosen R a -> is_anchor chosen R b -> a = b.
Proof.
  intros (Ha & Ha1 & Ha2) (Hb & Hb1 & Hb2).
  destruct (filter (fun r => dt_leb r chosen) R) as [|x tl] eqn:E.
  - assert (Hnone : forall r, In r R -> ~ dt_le r chosen).
    { intros r Hr Hle.
      assert (Hin : In r (filter (fun r => dt_leb r chosen) R))
        by (apply filter_In; auto).
      rewrite E in Hin. destruct Hin. }
    apply dt_le_antisym; auto.
  - assert (Hx : In x (filter (fun r => dt_leb r chosen) R))
      by (rewrite E; now left).
    apply filter_In in Hx.
    assert (Hex : exists r, In r R /\ dt_le r chosen) by (exists x; exact Hx).
    destruct (Ha1 Hex) as [Hac Hamax]. destruct (Hb1 Hex) as [Hbc Hbmax].
    apply dt_le_antisym; auto.
Qed.

Lemma fallback_rule_anchor (chosen : datetime) (R : list datetime) (p : Z)
    (anchor : datetime) :
  p <> 0 -> R <> [] -> is_anchor chosen R anchor ->
  fallback_rule chosen R p
  = (shifted <- sub_days chosen (date_diff_days chosen anchor mod p) ;;
     Ok (Some (replace_midnight_utc shifted))).
Proof.
  intros Hp HR Hanchor. unfold fallback_rule.
  destruct (py_min_spec R HR) as (m & -> & Hm & Hmin). cbn [bind].
  rewrite (is_anchor_unique chosen R _ anchor
             (anchor_spec chosen R m Hm Hmin) Hanchor).
  rewrite py_mod_ok by assumption. reflexivity.
Qed.

(** C3, as the code has it: when R is not empty and no date of R is in the
    same phase as the chosen date (period p > 0), the resolver anchors on
    the latest date of R that is [<= chosen], or on the minimum of R when
    there is none.  With [shift = (chosen - anchor) mod p], which lies in
    [0, p), it returns the chosen day minus [shift] days at midnight UTC
    whenever that day is not before 0001-01-01 (so always when the chosen
    date is at least p - 1 days after 0001-01-01), and it raises
    [OverflowError] otherwise.  For p = 12, R = {2024-01-01, 2024-01-13}
    and chosen = 2024-01-20 the result is 2024-01-13. *)
Theorem get_reference_date_fallback :
  (forall (chosen : datetime) (R : list datetime) (p : Z),
      0 < p -> R <> [] -> ordinal chosen <= Calendar.MAXORDINAL ->
      (forall r, In r R -> same_phase chosen r p <> Ok true) ->
      (exists anchor, is_anchor chosen R anchor)
      /\ forall anchor, is_anchor chosen R anchor ->
           let shift := (ordinal chosen - ordinal anchor) mod p in
           0 <= shift < p
           /\ (shift < ordinal chosen ->
               get_reference_date chosen R p
               = Ok (Some (mkDatetime (ordinal chosen - shift) 0)))
           /\ (ordinal chosen <= shift ->
               get_reference_date chosen R p = Raise OverflowError))
  /\ get_reference_date (utc_midnight 2024 1 20)
       [utc_midnight 2024 1 1; utc_midnight 2024 1 13] 12
     = Ok (Some (utc_midnight 2024 1 13)).
Proof.
  split; [|reflexivity].
  intros chosen R p Hp HR Hmax Hno. assert (Hp0 : p <> 0) by lia.
  split; [now apply is_anchor_exists|].
  intros anchor Hanchor shift.
  assert (Hshift : 0 <= shift < p) by (apply Z.mod_pos_bound; lia).
  assert (Hgrd : get_reference_date chosen R p
                 = (shifted <- sub_days chosen shift ;;
                    Ok (Some (replace_midnight_utc shifted)))).
  { rewrite get_reference_date_unfold, no_matches by assumption.
    now apply fallback_rule_anchor. }
  clearbody shift.
  split; [exact Hshift|]. split; intros Hrange; rewrite Hgrd; unfold sub_days.
  - destruct (0 <? ordinal chosen - shift) eqn:E1; [|lia].
    destruct (ordinal chosen - shift <=? Calendar.MAXORDINAL) eqn:E2; [|lia].
    reflexivity.
  - destruct (0 <? ordinal chosen - shift) eqn:E1; [lia|]. reflexivity.
Qed.

Lemma get_reference_date_fallback_witness :
  exists anchor,
    is_anchor (utc_midnight 2024 3 2)
      [utc_midnight 2024 1 1; utc_midnight 2024 1 13] anchor.
Proof.
  apply (proj1 get_reference_date_fallback (utc_midnight 2024 3 2)
           [utc_midnight 2024 1 1; utc_midnight 2024 1 13] 12).
  - lia.
  - discriminate.
  - vm_compute. discriminate.
  - intros r [<-|[<-|[]]] Hph; vm_compute in Hph; discriminate Hph.
Defined.

(** C3 as stated fails: with the chosen date 0001-01-01, R = {2024-01-02}
    and p = 12, R is not empty, its only date is not in the phase of the
    chosen date and is the anchor, the shift is 2, and the day two days
    before 0001-01-01 does not exist: nothing is returned, the call raises
    [OverflowError]. *)
Lemma get_reference_date_fallback_raises :
  same_phase (utc_midnight 1 1 1) (utc_midnight 2024 1 2) 12 = Ok false
  /\ is_anchor (utc_midnight 1 1 1) [utc_midnight 2024 1 2]
       (utc_midnight 2024 1 2)
  /\ (ordinal (utc_midnight 1 1 1) - ordinal (utc_midnight 2024 1 2)) mod 12
     = 2
  /\ get_reference_date (utc_midnight 1 1 1) [utc_midnight 2024 1 2] 12
     = Raise OverflowError.
Proof.
  split; [reflexivity|]. split; [|split; reflexivity].
  split; [now left|]. split.
  - intros (r & [<-|[]] & Hle). vm_compute in Hle. discriminate Hle.
  - intros _ r [<-|[]]. apply dt_le_refl.
Qed.

(** ** Membership in R, and when a value is returned *)

Lemma fallback_rule_outcome (chosen : datetime) (R : list datetime) (p : Z) :
  0 < p -> R <> [] ->
  exists a,
    is_anchor chosen R a
    /\ let shift := (ordinal chosen - ordinal a) mod p in
       0 <= shift < p
       /\ fallback_rule chosen R p
          = if (0 <? ordinal chosen - shift)
               && (ordinal chosen - shift <=? Calendar.MAXORDINAL)
            then Ok (Some (mkDatetime (ordinal chosen - shift) 0))
            else Raise OverflowError.
Proof.
  intros Hp HR. assert (Hp0 : p <> 0) by lia.
  destruct (is_anchor_exists chosen R HR) as (a & Ha).
  exists a. split; [exact Ha|]. intros shift.
  split; [apply Z.mod_pos_bound; lia|].
  rewrite (fallback_rule_anchor chosen R p a) by assumption.
  unfold sub_days, date_diff_days. fold shift.
  now destruct ((0 <? ordinal chosen - shift)
                && (ordinal chosen - shift <=? Calendar.MAXORDINAL)).
Qed.

Lemma sub_mod_in_phase (x p : Z) : p <> 0 -> (x - x mod p) mod p = 0.
Proof.
  intros Hp. rewrite (Z.div_mod x p) at 1 by assumption.
  replace (p * (x / p) + x mod p - x mod p) with ((x / p) * p) by ring.
  apply Z.mod_mul. assumption.
Qed.

(** C1, as the code has it: for a period [p > 0] the result is none exactly
    when R is empty; it is a member of R whenever some date of R is in the
    same phase as the chosen date; and when no date of R is, a returned
    value is the midnight, at most [p - 1] days before the chosen day, that
    is in the same phase as the anchor: it need not be a member of R. *)
Theorem get_reference_date_member (chosen : datetime) (R : list datetime)
    (p : Z) :
  0 < p ->
  (get_reference_date chosen R p = Ok None <-> R = [])
  /\ ((exists r, In r R /\ same_phase chosen r p = Ok true) ->
      exists res, get_reference_date chosen R p = Ok (Some res) /\ In res R)
  /\ ((forall r, In r R -> same_phase chosen r p <> Ok true) ->
      forall res, get_reference_date chosen R p = Ok (Some res) ->
        micros res = 0
        /\ ordinal chosen - p < ordinal res <= ordinal chosen
        /\ exists a, is_anchor chosen R a /\ same_phase res a p = Ok true).
Proof.
  intros Hp. assert (Hp0 : p <> 0) by lia.
  split; [|split].
  - split; [|now intros ->].
    intros Hnone. destruct R as [|x tl] eqn:ER; [reflexivity|]. exfalso.
    assert (HR : x :: tl <> []) by discriminate.
    rewrite get_reference_date_unfold in Hnone by assumption.
    destruct (filter (in_phase_b chosen p) (x :: tl)) as [|m ms] eqn:E.
    + destruct (fallback_rule_outcome chosen (x :: tl) p Hp HR)
        as (a & _ & _ & Hf).
      rewrite Hf in Hnone.
      destruct ((0 <? ordinal chosen - (ordinal chosen - ordinal a) mod p)
                && (ordinal chosen - (ordinal chosen - ordinal a) mod p
                    <=? Calendar.MAXORDINAL)); discriminate.
    + destruct (primary_rule_spec chosen (m :: ms)) as (res & Hres & _);
        [discriminate|].
      rewrite Hres in Hnone. discriminate.
  - intros (r0 & Hr0 & Hph0).
    assert (HR : R <> []) by (intros ->; destruct Hr0).
    assert (Hin0 : In r0 (filter (in_phase_b chosen p) R))
      by (apply in_matches; auto).
    assert (Hne : filter (in_phase_b chosen p) R <> [])
      by (intros E; rewrite E in Hin0; destruct Hin0).
    rewrite get_reference_date_unfold by assumption.
    destruct (primary_rule_spec chosen _ Hne) as (res & Hres & Hin & _).
    apply in_matches in Hin; [|assumption].
    exists res. split; [|tauto].
    destruct (filter (in_phase_b chosen p) R); [congruence | exact Hres].
  - intros Hno res Hres.
    assert (HR : R <> []).
    { intros ->. discriminate. }
    rewrite get_reference_date_unfold, no_matches in Hres by assumption.
    destruct (fallback_rule_outcome chosen R p Hp HR)
      as (a & Ha & Hshift & Hf).
    rewrite Hf in Hres.
    destruct ((0 <? ordinal chosen - (ordinal chosen - ordinal a) mod p)
              && (ordinal chosen - (ordinal chosen - ordinal a) mod p
                  <=? Calendar.MAXORDINAL)); [|discriminate].
    injection Hres as <-. simpl.
    split; [reflexivity|].
    split; [generalize dependent ((ordinal chosen - ordinal a) mod p); lia|].
    exists a. split; [exact Ha|].
    apply same_phase_true_iff; [assumption|].
    unfold in_phase_b, date_diff_days. simpl. apply Z.eqb_eq.
    replace (ordinal chosen - (ordinal chosen - ordinal a) mod p - ordinal a)
      with ((ordinal chosen - ordinal a)
            - (ordinal chosen - ordinal a) mod p) by ring.
    now apply sub_mod_in_phase.
Qed.

Lemma get_reference_date_member_witness :
  get_reference_date (utc_midnight 2024 1 25)
    [utc_midnight 2024 1 1; utc_midnight 2024 1 14] 12 = Ok None
  <-> [utc_midnight 2024 1 1; utc_midnight 2024 1 14] = [].
Proof.
  apply (get_reference_date_member (utc_midnight 2024 1 25)
           [utc_midnight 2024 1 1; utc_midnight 2024 1 14] 12).
  lia.
Defined.

(** C1 as stated fails: with R = {2024-01-01}, p = 12 and the chosen date
    2024-01-20 no date of R is in phase, and the fallback returns
    2024-01-13, which is not in R. *)
Lemma get_reference_date_not_member :
  get_reference_date (utc_midnight 2024 1 20) [utc_midnight 2024 1 1] 12
  = Ok (Some (utc_midnight 2024 1 13))
  /\ ~ In (utc_midnight 2024 1 13) [utc_midnight 2024 1 1].
Proof.
  split; [reflexivity|].
  intros [Heq|[]]. discriminate Heq.
Qed.

(** C6, as the code has it: the result is none when R is empty; for a
    non-empty R and a period [p > 0] a value is returned, without raising,
    whenever some date of R is in the same phase as the chosen date or the
    chosen date lies at least [p] days into the calendar (its ordinal is at
    least [p]). *)
Theorem get_reference_date_returns (chosen : datetime) (R : list datetime)
    (p : Z) :
  0 < p ->
  ordinal chosen <= Calendar.MAXORDINAL ->
  (R = [] -> get_reference_date chosen R p = Ok None)
  /\ (R <> [] ->
      p <= ordinal chosen
      \/ (exists r, In r R /\ same_phase chosen r p = Ok true) ->
      exists res, get_reference_date chosen R p = Ok (Some res)).
Proof.
  intros Hp Hmax. assert (Hp0 : p <> 0) by lia.
  split; [now intros ->|].
  intros HR Hcond.
  rewrite get_reference_date_unfold by assumption.
  destruct (filter (in_phase_b chosen p) R) as [|m ms] eqn:E.
  - destruct Hcond as [Hlate|(r & Hr & Hph)].
    + destruct (fallback_rule_outcome chosen R p Hp HR)
        as (a & _ & Hshift & ->).
      remember ((ordinal chosen - ordinal a) mod p) as shift eqn:Es.
      clear Es.
      destruct (0 <? ordinal chosen - shift) eqn:E1; [|exfalso; lia].
      destruct (ordinal chosen - shift <=? Calendar.MAXORDINAL) eqn:E2;
        [|exfalso; lia].
      eexists. reflexivity.
    + assert (Hin : In r (filter (in_phase_b chosen p) R))
        by (apply in_matches; auto).
      rewrite E in Hin. destruct Hin.
  - destruct (primary_rule_spec chosen (m :: ms)) as (res & Hres & _);
      [discriminate|].
    exists res. exact Hres.
Qed.

Lemma get_reference_date_returns_witness :
  exists res,
    get_reference_date (utc_midnight 2024 1 20) [utc_midnight 2024 1 1] 12
    = Ok (Some res).
Proof.
  apply (get_reference_date_returns (utc_midnight 2024 1 20)
           [utc_midnight 2024 1 1] 12).
  - lia.
  - vm_compute. discriminate.
  - discriminate.
  - left. vm_compute. discriminate.
Defined.

(** C6 as stated fails: 0001-01-01 is a date, R = {2024-01-02} is not
    empty and p = 12, yet the fallback's [chosen - timedelta(days=2)] is
    before [date.min] and raises. *)
Lemma get_reference_date_raises :
  valid_datetime (utc_midnight 1 1 1)
  /\ get_reference_date (utc_midnight 1 1 1) [utc_midnight 2024 1 2] 12
     = Raise OverflowError.
Proof.
  split; [|reflexivity].
  repeat split; vm_compute; try reflexivity; intro Hc; discriminate Hc.
Qed.

(** ** The reference dates of a plan *)

Lemma sorted_nodup_strict (l : list datetime) :
  StronglySorted dt_le l -> NoDup l -> StronglySorted dt_lt l.
Proof.
  induction 1 as [|x tl Hs IH Hall]; intros Hnd; [constructor|].
  inversion Hnd as [|? ? Hnotin Hnd']; subst.
  constructor; [auto|].
  rewrite Forall_forall in *. intros y Hy.
  apply dt_le_neq_lt; [auto|]. intros ->. contradiction.
Qed.

(** C7: the reference-date list of a plan, [sorted(set(dates))] over the
    dates found in the properties of all its features, is strictly
    ascending and without duplicates, and it holds exactly the dates
    found. *)
Theorem reference_dates_strictly_ascending (feats : list (option props)) :
  StronglySorted dt_lt (reference_dates_of feats)
  /\ NoDup (reference_dates_of feats)
  /\ forall d, In d (reference_dates_of feats)
               <-> exists f, In f feats
                             /\ In d (extract_dates_from_properties f).
Proof.
  unfold reference_dates_of, py_set.
  set (dates := flat_map extract_dates_from_properties feats).
  assert (Hnd : NoDup (py_sort (nodup datetime_eq_dec dates))).
  { eapply Permutation_NoDup; [apply py_sort_perm | apply NoDup_nodup]. }
  split; [|split].
  - apply sorted_nodup_strict; [apply py_sort_sorted | exact Hnd].
  - exact Hnd.
  - intros d. rewrite py_sort_In, nodup_In. unfold dates.
    rewrite in_flat_map. reflexivity.
Qed.

Lemma sorted_perm_unique (l1 l2 : list datetime) :
  StronglySorted dt_le l1 -> StronglySorted dt_le l2 ->
  Permutation l1 l2 -> l1 = l2.
Proof.
  revert l2. induction l1 as [|x t1 IH]; intros l2 H1 H2 Hp.
  - apply Permutation_nil in Hp. now subst.
  - destruct l2 as [|y t2].
    + apply Permutation_sym, Permutation_nil in Hp. discriminate.
    + assert (Hxy : x = y).
      { apply dt_le_antisym.
        - apply (sorted_head_least _ _ H1).
          apply (Permutation_in _ (Permutation_sym Hp)). now left.
        - apply (sorted_head_least _ _ H2).
          apply (Permutation_in _ Hp). now left. }
      subst y. f_equal.
      apply IH.
      * now inversion H1.
      * now inversion H2.
      * now apply Permutation_cons_inv in Hp.
Qed.

(** The order in which [set(dates)] is iterated does not show in
    [sorted(set(dates))]. *)
Lemma py_sort_order_independent (l l' : list datetime) :
  Permutation l l' -> py_sort l = py_sort l'.
Proof.
  intros Hp. apply sorted_perm_unique; try apply py_sort_sorted.
  rewrite <- !py_sort_perm. exact Hp.
Qed.

(** ** Characters *)

Lemma is_digit_cases (c : ascii) :
  is_digit c = true -> In c decimal_digits.
Proof.
  intros Hd.
  destruct c as [[] [] [] [] [] [] [] []];
    try (vm_compute in Hd; discriminate Hd);
    simpl; auto 12.
Qed.

Lemma is_digit_is_word (c : ascii) : is_digit c = true -> is_word c = true.
Proof. intros Hd. unfold is_word. now rewrite Hd. Qed.

Lemma digit_not_dash (c : ascii) : is_digit c = true -> c <> "-"%char.
Proof. intros Hd ->. vm_compute in Hd. discriminate Hd. Qed.

(** ** One attempt of the pattern *)

Ltac split_andb H :=
  repeat match type of H with
         | (_ && _)%bool = true =>
             let H1 := fresh "Hc" in
             let H2 := fresh "Hc" in
             apply andb_true_iff in H; destruct H as [H1 H2];
             split_andb H1; split_andb H2
         end.

Ltac ascii_eqs :=
  repeat match goal with
         | H : (_ =? _)%char = true |- _ => apply Ascii.eqb_eq in H
         end.

Lemma date_shape_view (h : string) :
  date_shape h = true <->
  exists c2 c3 c5 c6 c8 c9,
    h = date_text c2 c3 c5 c6 c8 c9 EmptyString
    /\ is_digit c2 = true /\ is_digit c3 = true /\ is_digit c5 = true
    /\ is_digit c6 = true /\ is_digit c8 = true /\ is_digit c9 = true.
Proof.
  split.
  - intros Hs.
    do 10 (destruct h as [|? h]; [discriminate Hs|]).
    destruct h; [|discriminate Hs].
    unfold date_shape in Hs. split_andb Hs. ascii_eqs. subst.
    do 6 eexists. split; [reflexivity|]. auto 10.
  - intros (c2 & c3 & c5 & c6 & c8 & c9 & -> & H2 & H3 & H5 & H6 & H8 & H9).
    unfold date_text, date_shape. rewrite H2, H3, H5, H6, H8, H9.
    reflexivity.
Qed.

Lemma substring_10_view (s : string) (c2 c3 c5 c6 c8 c9 : ascii) :
  substring 0 10 s = date_text c2 c3 c5 c6 c8 c9 EmptyString ->
  exists rest, s = date_text c2 c3 c5 c6 c8 c9 rest.
Proof.
  intros Hs.
  do 10 (destruct s as [|? s]; [discriminate Hs|]).
  simpl in Hs. unfold date_text in Hs. injection Hs as -> -> -> -> -> -> -> -> -> -> _.
  now exists s.
Qed.

Lemma DATE_RE_match_date_text (prev : option ascii)
    (c2 c3 c5 c6 c8 c9 : ascii) (rest : string) :
  is_digit c2 = true -> is_digit c3 = true -> is_digit c5 = true ->
  is_digit c6 = true -> is_digit c8 = true -> is_digit c9 = true ->
  DATE_RE_match prev (date_text c2 c3 c5 c6 c8 c9 rest)
  = if negb (is_word_opt prev) && negb (is_word_opt (first_char rest))
    then Some (date_text c2 c3 c5 c6 c8 c9 EmptyString)
    else None.
Proof.
  intros H2 H3 H5 H6 H8 H9. unfold DATE_RE_match, date_text.
  rewrite H2, H3, H5, H6, H8, H9. unfold word_boundary.
  cbn [is_word_opt]. rewrite (is_digit_is_word c9 H9).
  change (is_word "2") with true. cbn [substring].
  replace (substring 0 0 rest) with EmptyString by now destruct rest.
  destruct (is_word_opt prev), (is_word_opt (first_char rest)); reflexivity.
Qed.

Lemma substring_10_date_text (c2 c3 c5 c6 c8 c9 : ascii) (rest : string) :
  substring 0 10 (date_text c2 c3 c5 c6 c8 c9 rest)
  = date_text c2 c3 c5 c6 c8 c9 EmptyString.
Proof. unfold date_text. cbn [substring]. now destruct rest. Qed.

Lemma get_10_date_text (c2 c3 c5 c6 c8 c9 : ascii) (rest : string) :
  get 10 (date_text c2 c3 c5 c6 c8 c9 rest) = first_char rest.
Proof. unfold date_text. simpl. now destruct rest. Qed.

(** An attempt succeeds with group [h] exactly when [h] is the date-shaped
    text at the position of the attempt, between two non-word borders. *)
Lemma DATE_RE_match_spec (prev : option ascii) (s h : string) :
  DATE_RE_match prev s = Some h <-> occurs_from prev s 0 h.
Proof.
  unfold occurs_from. cbn [char_before Nat.add]. split.
  - intros Hm.
    assert (Hsub : h = substring 0 10 s
                   /\ exists c2 c3 c5 c6 c8 c9 rest,
                        s = date_text c2 c3 c5 c6 c8 c9 rest
                        /\ is_digit c2 = true /\ is_digit c3 = true
                        /\ is_digit c5 = true /\ is_digit c6 = true
                        /\ is_digit c8 = true /\ is_digit c9 = true).
    { unfold DATE_RE_match in Hm.
      do 10 (destruct s as [|? s]; [discriminate Hm|]).
      match type of Hm with
      | (if ?c then _ else _) = _ => destruct c eqn:E; [|discriminate Hm]
      end.
      injection Hm as <-. split; [reflexivity|].
      split_andb E. ascii_eqs. subst.
      do 7 eexists. split; [reflexivity|]. auto 10. }
    destruct Hsub as (-> & c2 & c3 & c5 & c6 & c8 & c9 & rest & -> & H2 & H3
                      & H5 & H6 & H8 & H9).
    rewrite DATE_RE_match_date_text in Hm by assumption.
    rewrite get_10_date_text, substring_10_date_text.
    destruct (is_word_opt prev), (is_word_opt (first_char rest));
      try discriminate Hm.
    split; [reflexivity|]. split; [|auto].
    apply date_shape_view. do 6 eexists. split; [reflexivity|]. auto 10.
  - intros (Hsub & Hshape & Hprev & Hnext).
    apply date_shape_view in Hshape.
    destruct Hshape as (c2 & c3 & c5 & c6 & c8 & c9 & -> & H2 & H3 & H5 & H6
                        & H8 & H9).
    destruct (substring_10_view _ _ _ _ _ _ _ Hsub) as (rest & ->).
    rewrite get_10_date_text in Hnext.
    rewrite DATE_RE_match_date_text, Hprev, Hnext by assumption.
    reflexivity.
Qed.

(** ** The scan *)

Lemma occurs_from_shift (prev : option ascii) (c : ascii) (rest : string)
    (j : nat) (h : string) :
  occurs_from prev (String c rest) (S j) h <-> occurs_from (Some c) rest j h.
Proof.
  unfold occurs_from. cbn [substring Nat.add get].
  replace (char_before prev (String c rest) (S j))
    with (char_before (Some c) rest j) by now destruct j.
  reflexivity.
Qed.

Lemma occurs_from_empty (prev : option ascii) (j : nat) (h : string) :
  ~ occurs_from prev EmptyString j h.
Proof.
  intros (Hsub & Hshape & _). destruct j; simpl in Hsub; subst h;
    discriminate Hshape.
Qed.

(** Two hits never overlap: inside a hit and just after its first character
    no other attempt can succeed, so resuming the scan after a hit loses
    nothing. *)
Lemma occurs_from_no_overlap (prev : option ascii) (s h : string) :
  occurs_from prev s 0 h ->
  forall j h', (0 < j < 10)%nat -> ~ occurs_from prev s j h'.
Proof.
  intros (Hsub & Hshape & _ & Hnext) j h' Hj.
  apply date_shape_view in Hshape.
  destruct Hshape as (c2 & c3 & c5 & c6 & c8 & c9 & -> & H2 & H3 & H5 & H6
                      & H8 & H9).
  destruct (substring_10_view _ _ _ _ _ _ _ Hsub) as (rest & ->).
  rewrite get_10_date_text in Hnext. clear Hsub.
  pose proof (is_digit_is_word _ H2) as W2.
  pose proof (is_digit_is_word _ H3) as W3.
  pose proof (is_digit_is_word _ H5) as W5.
  pose proof (is_digit_is_word _ H6) as W6.
  pose proof (is_digit_is_word _ H8) as W8.
  intros (Hsub' & Hshape' & Hbefore & _).
  destruct j as [|[|[|[|[|[|[|[|[|[|j]]]]]]]]]]; try lia;
    unfold date_text in Hsub', Hbefore;
    cbn [char_before get is_word_opt] in Hbefore;
    try congruence; try discriminate Hbefore.
  - (* after the first dash: the month's dash is where a digit must be *)
    subst h'. cbn [substring] in Hshape'.
    apply date_shape_view in Hshape'.
    destruct Hshape' as (d2 & d3 & d5 & d6 & d8 & d9 & Heq & D2 & _).
    unfold date_text in Heq. injection Heq; intros; subst.
    vm_compute in D2. discriminate D2.
  - (* after the second dash: a digit would follow the hit *)
    subst h'. cbn [substring] in Hshape'.
    apply date_shape_view in Hshape'.
    destruct Hshape' as (d2 & d3 & d5 & d6 & d8 & d9 & Heq & D2 & _).
    unfold date_text in Heq. injection Heq; intros Hrest _ _.
    destruct rest as [|r0 rest]; [discriminate Hrest|].
    cbn [substring] in Hrest. injection Hrest; intros _ ->.
    cbn [first_char is_word_opt] in Hnext.
    rewrite (is_digit_is_word _ D2) in Hnext. discriminate Hnext.
Qed.

Lemma findall_from_spec (s : string) :
  forall (prev : option ascii) (k : nat),
    (forall j h, (j < k)%nat -> ~ occurs_from prev s j h) ->
    forall h, In h (findall_from prev k s)
              <-> exists j, occurs_from prev s j h.
Proof.
  induction s as [|c rest IH]; intros prev k Hskip h.
  - simpl. split; [intros []|]. intros (j & Hj).
    now apply occurs_from_empty in Hj.
  - assert (Htail : forall k',
               (forall j h', (j < k')%nat ->
                             ~ occurs_from (Some c) rest j h') ->
               (In h (findall_from (Some c) k' rest)
                <-> exists j, (0 < j)%nat
                              /\ occurs_from prev (String c rest) j h)).
    { intros k' Hk'. rewrite (IH (Some c) k' Hk'). split.
      - intros (j & Hj). exists (S j). split; [lia|].
        apply (proj2 (occurs_from_shift _ _ _ _ _)). exact Hj.
      - intros ([|j] & Hpos & Hj); [lia|]. exists j.
        apply (proj1 (occurs_from_shift prev _ _ _ _)). exact Hj. }
    destruct k as [|k]; cbn [findall_from].
    + destruct (DATE_RE_match prev (String c rest)) as [hit|] eqn:E.
      * apply DATE_RE_match_spec in E.
        cbn [In]. rewrite Htail.
        -- split.
           ++ intros [<-|(j & _ & Hj)]; eauto.
           ++ intros ([|j] & Hj).
              ** left. destruct E as (<- & _), Hj as (<- & _). reflexivity.
              ** right. exists (S j). split; [lia | exact Hj].
        -- intros j h' Hlt Hocc.
           apply (proj2 (occurs_from_shift prev _ _ _ _)) in Hocc.
           apply (occurs_from_no_overlap _ _ _ E (S j) h'); [lia | exact Hocc].
      * rewrite Htail by (intros j h' Hlt; lia). split.
        -- intros (j & _ & Hj). eauto.
        -- intros ([|j] & Hj).
           ++ apply DATE_RE_match_spec in Hj. congruence.
           ++ exists (S j). split; [lia | exact Hj].
    + rewrite Htail.
      * split.
        -- intros (j & _ & Hj). eauto.
        -- intros ([|j] & Hj).
           ++ exfalso. apply (Hskip 0%nat h); [lia | exact Hj].
           ++ exists (S j). split; [lia | exact Hj].
      * intros j h' Hlt Hocc.
           apply (proj2 (occurs_from_shift prev _ _ _ _)) in Hocc.
        apply (Hskip (S j) h'); [lia | exact Hocc].
Qed.

(** [DATE_RE.findall(v)] holds exactly the date-shaped texts of [v] that
    stand between non-word borders. *)
Lemma DATE_RE_findall_spec (v h : string) :
  In h (DATE_RE_findall v) <-> exists i, occurs_at v i h.
Proof.
  unfold DATE_RE_findall, occurs_at. apply findall_from_spec.
  intros j h' Hlt. lia.
Qed.

(** ** Parsing a hit *)

Ltac digit_cases H :=
  apply is_digit_cases in H; unfold decimal_digits in H; cbn [In] in H;
  repeat (destruct H as [<-|H]); try contradiction.

Lemma digit_val_bounds (c : ascii) :
  is_digit c = true -> 0 <= digit_val c <= 9.
Proof.
  intros Hd. digit_cases Hd; vm_compute; split; discriminate.
Qed.

Lemma month_day_matches_month (c5 c6 : ascii) (r2 : string) :
  is_digit c5 = true -> is_digit c6 = true ->
  month_day_matches (String c5 (String c6 (String "-" r2)))
  = if (1 <=? 10 * digit_val c5 + digit_val c6)
       && (10 * digit_val c5 + digit_val c6 <=? 12)
    then map (fun dr : Z * string =>
                (10 * digit_val c5 + digit_val c6, fst dr, snd dr))
           (day_alts r2)
    else [].
Proof.
  intros H5 H6. unfold month_day_matches.
  digit_cases H5; digit_cases H6; cbn -[day_alts]; rewrite ?app_nil_r;
    reflexivity.
Qed.

Lemma day_alts_first (c8 c9 : ascii) :
  is_digit c8 = true -> is_digit c9 = true ->
  hd_error (day_alts (String c8 (String c9 EmptyString)))
  = if (1 <=? 10 * digit_val c8 + digit_val c9)
       && (10 * digit_val c8 + digit_val c9 <=? 31)
    then Some (10 * digit_val c8 + digit_val c9, EmptyString)
    else if 10 * digit_val c8 + digit_val c9 =? 0 then None
    else Some (digit_val c8, String c9 EmptyString).
Proof.
  intros H8 H9. digit_cases H8; digit_cases H9; vm_compute; reflexivity.
Qed.

Lemma days_in_month_le_31 (y m : Z) : Calendar.days_in_month y m <= 31.
Proof.
  unfold Calendar.days_in_month.
  destruct (m =? 2); [destruct (Calendar.is_leap y); lia|].
  destruct ((m =? 4) || (m =? 6) || (m =? 9) || (m =? 11))%bool; lia.
Qed.

Lemma check_date_fields_spec (y m d : Z) :
  Calendar.check_date_fields y m d
  = if ((1 <=? y) && (y <=? 9999) && ((1 <=? m) && (m <=? 12))
        && ((1 <=? d) && (d <=? Calendar.days_in_month y m)))%bool
    then Ok tt else Raise ValueError.
Proof.
  unfold Calendar.check_date_fields, Calendar.MINYEAR, Calendar.MAXYEAR.
  destruct ((1 <=? y) && (y <=? 9999))%bool; [|reflexivity].
  destruct ((1 <=? m) && (m <=? 12))%bool; [|reflexivity].
  destruct ((1 <=? d) && (d <=? Calendar.days_in_month y m))%bool;
    reflexivity.
Qed.

Lemma fields_of_date_text (c2 c3 c5 c6 c8 c9 : ascii) :
  let h := date_text c2 c3 c5 c6 c8 c9 EmptyString in
  year_of h = 2000 + 10 * digit_val c2 + digit_val c3
  /\ month_of h = 10 * digit_val c5 + digit_val c6
  /\ day_of h = 10 * digit_val c8 + digit_val c9.
Proof.
  unfold year_of, month_of, day_of, field, date_text.
  cbn -[digit_val Z.mul Z.add].
  change (digit_val "2") with 2. change (digit_val "0") with 0. lia.
Qed.

(** [strptime] on a date-shaped text: the fields are read at their fixed
    places and must make a date. *)
Lemma strptime_ymd_date_text (c2 c3 c5 c6 c8 c9 : ascii) :
  is_digit c2 = true -> is_digit c3 = true -> is_digit c5 = true ->
  is_digit c6 = true -> is_digit c8 = true -> is_digit c9 = true ->
  let y := 2000 + 10 * digit_val c2 + digit_val c3 in
  let m := 10 * digit_val c5 + digit_val c6 in
  let d := 10 * digit_val c8 + digit_val c9 in
  strptime_ymd (date_text c2 c3 c5 c6 c8 c9 EmptyString)
  = (_ <- Calendar.check_date_fields y m d ;; Ok (utc_midnight y m d)).
Proof.
  intros H2 H3 H5 H6 H8 H9 y m d.
  pose proof (digit_val_bounds _ H2). pose proof (digit_val_bounds _ H3).
  pose proof (digit_val_bounds _ H5). pose proof (digit_val_bounds _ H6).
  pose proof (digit_val_bounds _ H8). pose proof (digit_val_bounds _ H9).
  pose proof (days_in_month_le_31 y m) as Hdim.
  unfold strptime_ymd, date_text. rewrite H2, H3.
  change (is_digit "2" && is_digit "0" && true && true
          && ("-" =? "-")%char)%bool with true. cbv iota.
  rewrite month_day_matches_month by assumption. fold m.
  change (1000 * digit_val "2" + 100 * digit_val "0" + 10 * digit_val c2
          + digit_val c3) with (2000 + 0 + 10 * digit_val c2 + digit_val c3).
  replace (2000 + 0 + 10 * digit_val c2 + digit_val c3) with y
    by (unfold y; lia).
  rewrite (check_date_fields_spec y m d).
  pose proof (day_alts_first c8 c9 H8 H9) as Hfirst. fold d in Hfirst.
  destruct ((1 <=? m) && (m <=? 12))%bool eqn:Em.
  - destruct ((1 <=? d) && (d <=? 31))%bool eqn:Ed.
    + destruct (day_alts (String c8 (String c9 EmptyString)))
        as [|[d' r'] tl]; [discriminate Hfirst|].
      injection Hfirst as -> ->. cbn [map fst snd].
      rewrite check_date_fields_spec, Em. reflexivity.
    + assert (Hbad : ((1 <=? d) && (d <=? Calendar.days_in_month y m))%bool
                     = false) by lia.
      rewrite Hbad, !andb_false_r. cbn [bind].
      destruct (d =? 0).
      * destruct (day_alts (String c8 (String c9 EmptyString)));
          [reflexivity | discriminate Hfirst].
      * destruct (day_alts (String c8 (String c9 EmptyString)))
          as [|[d' r'] tl]; [discriminate Hfirst|].
        injection Hfirst as -> ->. reflexivity.
  - rewrite andb_false_r. reflexivity.
Qed.

Lemma parse_date_ymd_hit (h : string) :
  date_shape h = true ->
  parse_date_ymd h
  = match Calendar.check_date_fields (year_of h) (month_of h) (day_of h) with
    | Ok _ => Some (utc_midnight (year_of h) (month_of h) (day_of h))
    | Raise _ => None
    end
  /\ 2000 <= year_of h <= 2099.
Proof.
  intros Hshape. apply date_shape_view in Hshape.
  destruct Hshape as (c2 & c3 & c5 & c6 & c8 & c9 & -> & H2 & H3 & H5 & H6
                      & H8 & H9).
  destruct (fields_of_date_text c2 c3 c5 c6 c8 c9) as (-> & -> & ->).
  split.
  - unfold parse_date_ymd.
    rewrite substring_10_date_text, strptime_ymd_date_text by assumption.
    now destruct (Calendar.check_date_fields _ _ _).
  - pose proof (digit_val_bounds _ H2). pose proof (digit_val_bounds _ H3).
    lia.
Qed.

(** ** What the two scans of the properties see *)

Lemma in_dates_of_hits (hits : list string) (d : datetime) :
  In d (dates_of_hits hits)
  <-> exists hit, In hit hits /\ parse_date_ymd hit = Some d.
Proof.
  induction hits as [|hit tl IH]; simpl.
  - split; [intros [] | intros (? & [] & _)].
  - destruct (parse_date_ymd hit) as [dt|] eqn:E; cbn [In]; rewrite IH.
    + split.
      * intros [<-|(x & Hx & Hp)]; eauto.
      * intros (x & [<-|Hx] & Hp); [left; congruence | eauto].
    + split.
      * intros (x & Hx & Hp); eauto.
      * intros (x & [<-|Hx] & Hp); [congruence | eauto 10].
Qed.

Lemma in_extract_dates_from_values (vs : list pyval) (d : datetime) :
  In d (extract_dates_from_values vs)
  <-> exists v hit,
        In v vs /\ v <> PNone
        /\ In hit (DATE_RE_findall (text_of v))
        /\ parse_date_ymd hit = Some d.
Proof.
  induction vs as [|v tl IH].
  - simpl. split; [intros [] | intros (? & ? & [] & _)].
  - assert (Htl : (exists v' hit,
                      In v' tl /\ v' <> PNone
                      /\ In hit (DATE_RE_findall (text_of v'))
                      /\ parse_date_ymd hit = Some d)
                  -> exists v' hit,
                      In v' (v :: tl) /\ v' <> PNone
                      /\ In hit (DATE_RE_findall (text_of v'))
                      /\ parse_date_ymd hit = Some d).
    { intros (v' & hit & Hin & Hrest). exists v', hit.
      split; [now right | exact Hrest]. }
    destruct v as [|s|t].
    + cbn [extract_dates_from_values]. rewrite IH. split; [exact Htl|].
      intros (v' & hit & [<-|Hin] & Hne & Hrest); [congruence|eauto 10].
    + cbn [extract_dates_from_values]. rewrite in_app_iff, in_dates_of_hits, IH.
      split.
      * intros [(hit & Hhit & Hp)|Hin]; [|auto].
        exists (PStr s), hit. repeat split; [now left | discriminate | auto..].
      * intros (v' & hit & [<-|Hin] & Hne & Hhit & Hp); [left|right]; eauto 10.
    + cbn [extract_dates_from_values]. rewrite in_app_iff, in_dates_of_hits, IH.
      split.
      * intros [(hit & Hhit & Hp)|Hin]; [|auto].
        exists (POther t), hit.
        repeat split; [now left | discriminate | auto..].
      * intros (v' & hit & [<-|Hin] & Hne & Hhit & Hp); [left|right]; eauto 10.
Qed.

Lemma values_have_target_date_spec (vs : list pyval) (t : string) :
  values_have_target_date vs t = true
  <-> exists v, In v vs /\ v <> PNone /\ In t (DATE_RE_findall (text_of v)).
Proof.
  assert (Hex : forall v,
             existsb (fun hit => (hit =? t)%string)
               (DATE_RE_findall (text_of v)) = true
             <-> In t (DATE_RE_findall (text_of v))).
  { intros v. rewrite existsb_exists. split.
    - intros (x & Hx & Heq). apply String.eqb_eq in Heq. now subst.
    - intros Hin. exists t. split; [exact Hin | apply String.eqb_refl]. }
  induction vs as [|v tl IH].
  - simpl. split; [discriminate | intros (? & [] & _)].
  - destruct v as [|s|u]; cbn [values_have_target_date].
    + rewrite IH. split.
      * intros (v & Hin & Hrest). exists v. split; [now right | exact Hrest].
      * intros (v & [<-|Hin] & Hne & Hrest); [congruence | eauto 10].
    + destruct (existsb _ (DATE_RE_findall (text_of (PStr s)))) eqn:E.
      * apply Hex in E. split; [|reflexivity]. intros _.
        exists (PStr s). repeat split; [now left | discriminate | exact E].
      * rewrite IH. split.
        -- intros (v & Hin & Hrest). exists v.
           split; [now right | exact Hrest].
        -- intros (v & [<-|Hin] & Hne & Hrest); [|eauto 10].
           apply Hex in Hrest. congruence.
    + destruct (existsb _ (DATE_RE_findall (text_of (POther u)))) eqn:E.
      * apply Hex in E. split; [|reflexivity]. intros _.
        exists (POther u). repeat split; [now left | discriminate | exact E].
      * rewrite IH. split.
        -- intros (v & Hin & Hrest). exists v.
           split; [now right | exact Hrest].
        -- intros (v & [<-|Hin] & Hne & Hrest); [|eauto 10].
           apply Hex in Hrest. congruence.
Qed.

Lemma contains_substring (s t : string) (i : nat) :
  substring i (String.length t) s = t -> contains t s = true.
Proof.
  revert i. induction s as [|c rest IH]; intros i Hsub.
  - assert (Ht : t = EmptyString).
    { destruct i, (String.length t); simpl in Hsub; congruence. }
    subst t. reflexivity.
  - destruct i as [|i].
    + apply prefix_correct in Hsub. cbn [contains]. now rewrite Hsub.
    + cbn [substring] in Hsub. cbn [contains].
      rewrite (IH i Hsub). apply orb_true_r.
Qed.

Lemma date_shape_length (h : string) :
  date_shape h = true -> String.length h = 10%nat.
Proof.
  intros Hs. apply date_shape_view in Hs.
  destruct Hs as (c2 & c3 & c5 & c6 & c8 & c9 & -> & _). reflexivity.
Qed.

Lemma occurs_at_contains (v h : string) (i : nat) :
  occurs_at v i h -> contains h v = true.
Proof.
  intros (Hsub & Hshape & _). apply contains_substring with (i := i).
  now rewrite (date_shape_length _ Hshape).
Qed.

(** ** Dates of this century *)

Lemma leap_year_length (y : Z) :
  Calendar.days_before_year (y + 1) - Calendar.days_before_year y
  = if Calendar.is_leap y then 366 else 365.
Proof.
  unfold Calendar.days_before_year, Calendar.is_leap.
  replace (y + 1 - 1) with y by ring.
  destruct (Z.eqb_spec (y mod 4) 0), (Z.eqb_spec (y mod 100) 0),
    (Z.eqb_spec (y mod 400) 0); cbn [negb andb orb];
    Z.div_mod_to_equations; lia.
Qed.

Lemma days_before_year_mono (y y' : Z) :
  y <= y' -> Calendar.days_before_year y <= Calendar.days_before_year y'.
Proof.
  unfold Calendar.days_before_year. intros Hle.
  Z.div_mod_to_equations. lia.
Qed.

Lemma day_of_year_bounds (y m d : Z) :
  1 <= m <= 12 -> 1 <= d <= Calendar.days_in_month y m ->
  1 <= Calendar.days_before_month y m + d
    <= if Calendar.is_leap y then 366 else 365.
Proof.
  intros Hm Hd.
  assert (Hcases : m = 1 \/ m = 2 \/ m = 3 \/ m = 4 \/ m = 5 \/ m = 6
                   \/ m = 7 \/ m = 8 \/ m = 9 \/ m = 10 \/ m = 11 \/ m = 12)
    by lia.
  unfold Calendar.days_before_month, Calendar.days_in_month in *.
  destruct (Calendar.is_leap y);
    repeat (destruct Hcases as [->|Hcases]); try subst m;
    match goal with
    | |- context [nth ?i ?l ?z] =>
        let v := eval vm_compute in (nth i l z) in
        change (nth i l z) with v
    end;
    cbn -[Z.add] in Hd |- *; lia.
Qed.

Lemma ymd2ord_bounds (y m d : Z) :
  Calendar.check_date_fields y m d = Ok tt ->
  Calendar.ymd2ord y 1 1 <= Calendar.ymd2ord y m d
    <= Calendar.ymd2ord y 12 31.
Proof.
  rewrite check_date_fields_spec.
  destruct ((1 <=? y) && (y <=? 9999) && ((1 <=? m) && (m <=? 12))
            && ((1 <=? d) && (d <=? Calendar.days_in_month y m)))%bool
    eqn:E; [|discriminate].
  intros _.
  assert (Hm : 1 <= m <= 12) by lia.
  assert (Hd : 1 <= d <= Calendar.days_in_month y m) by lia.
  pose proof (day_of_year_bounds y m d Hm Hd) as Hdoy.
  unfold Calendar.ymd2ord.
  change (Calendar.days_before_month y 1) with 0.
  assert (H12 : Calendar.days_before_month y 12 + 31
                = if Calendar.is_leap y then 366 else 365).
  { unfold Calendar.days_before_month.
    change (nth (Z.to_nat (12 - 1)) Calendar.DAYS_BEFORE_MONTH 0) with 334.
    cbn -[Z.add]. destruct (Calendar.is_leap y); reflexivity. }
  lia.
Qed.

Lemma century_ordinal_bounds (y m d : Z) :
  2000 <= y <= 2099 ->
  Calendar.check_date_fields y m d = Ok tt ->
  ordinal (utc_midnight 2000 1 1) <= ordinal (utc_midnight y m d)
    <= ordinal (utc_midnight 2099 12 31).
Proof.
  intros Hy Hok. pose proof (ymd2ord_bounds y m d Hok) as Hb.
  cbn [ordinal utc_midnight].
  assert (Hlo : Calendar.ymd2ord 2000 1 1 <= Calendar.ymd2ord y 1 1).
  { unfold Calendar.ymd2ord.
    change (Calendar.days_before_month 2000 1) with 0.
    change (Calendar.days_before_month y 1) with 0.
    pose proof (days_before_year_mono 2000 y). lia. }
  assert (Hhi : Calendar.ymd2ord y 12 31 <= Calendar.ymd2ord 2099 12 31).
  { pose proof (leap_year_length y) as Hlen.
    pose proof (days_before_year_mono (y + 1) 2100) as Hmono.
    assert (Hy12 : Calendar.ymd2ord y 12 31
                   = Calendar.days_before_year (y + 1)).
    { unfold Calendar.ymd2ord, Calendar.days_before_month.
      change (nth (Z.to_nat (12 - 1)) Calendar.DAYS_BEFORE_MONTH 0) with 334.
      cbn [Z.ltb Z.compare Pos.compare Pos.compare_cont andb].
      destruct (Calendar.is_leap y); lia. }
    rewrite Hy12.
    change (Calendar.ymd2ord 2099 12 31)
      with (Calendar.days_before_year 2100).
    apply Hmono. lia. }
  lia.
Qed.

(** ** Extraction and matching *)

Lemma findall_date_shape (v hit : string) :
  In hit (DATE_RE_findall v) -> date_shape hit = true.
Proof.
  intros Hin. apply DATE_RE_findall_spec in Hin.
  destruct Hin as (i & _ & Hshape & _). exact Hshape.
Qed.

Lemma parse_date_ymd_hit_some (h : string) (d : datetime) :
  date_shape h = true ->
  (parse_date_ymd h = Some d
   <-> Calendar.check_date_fields (year_of h) (month_of h) (day_of h) = Ok tt
       /\ d = utc_midnight (year_of h) (month_of h) (day_of h)).
Proof.
  intros Hshape. destruct (parse_date_ymd_hit h Hshape) as [-> _].
  destruct (Calendar.check_date_fields _ _ _) as [[]|e].
  - split; [intros [= <-]; auto | intros [_ ->]; reflexivity].
  - split; [discriminate | intros [Hbad _]; discriminate Hbad].
Qed.

Lemma feature_has_target_date_occurs (p : option props) (t : string) :
  feature_has_target_date p t = true
  <-> exists v i,
        In v (values p) /\ v <> PNone /\ occurs_at (text_of v) i t.
Proof.
  unfold feature_has_target_date.
  rewrite values_have_target_date_spec. split.
  - intros (v & Hv & Hne & Hhit).
    apply DATE_RE_findall_spec in Hhit. destruct Hhit as (i & Hocc).
    exists v, i. auto.
  - intros (v & i & Hv & Hne & Hocc). exists v.
    repeat split; try assumption.
    apply DATE_RE_findall_spec. now exists i.
Qed.

(** C8: the dates extracted from a property map are exactly the regex hits
    of its values (other than None) whose text makes a valid calendar date;
    a hit that does not parse, such as 2024-13-45, yields no date and no
    error: the function is total on every property map, a missing map
    included. *)
Theorem extract_dates_drops_invalid_hits :
  (forall (p : option props) (d : datetime),
      In d (extract_dates_from_properties p)
      <-> exists v hit,
            In v (values p) /\ v <> PNone
            /\ In hit (DATE_RE_findall (text_of v))
            /\ Calendar.check_date_fields
                 (year_of hit) (month_of hit) (day_of hit) = Ok tt
            /\ d = utc_midnight (year_of hit) (month_of hit) (day_of hit))
  /\ (forall v hit,
        In hit (DATE_RE_findall v) ->
        parse_date_ymd hit
        = match Calendar.check_date_fields
                  (year_of hit) (month_of hit) (day_of hit) with
          | Ok _ =>
              Some (utc_midnight (year_of hit) (month_of hit) (day_of hit))
          | Raise _ => None
          end)
  /\ DATE_RE_findall "2024-13-45" = ["2024-13-45"%string]
  /\ parse_date_ymd "2024-13-45" = None
  /\ extract_dates_from_properties
       (Some [("note"%string, PStr "2024-13-45");
              ("valid"%string, PStr "2024-02-30/2024-05-02")])
     = [utc_midnight 2024 5 2].
Proof.
  split; [|split; [|repeat split]].
  - intros p d. unfold extract_dates_from_properties.
    rewrite in_extract_dates_from_values. split.
    + intros (v & hit & Hv & Hne & Hhit & Hp).
      apply parse_date_ymd_hit_some in Hp;
        [|now apply findall_date_shape with (v := text_of v)].
      exists v, hit. tauto.
    + intros (v & hit & Hv & Hne & Hhit & Hok & Hd).
      exists v, hit. repeat split; try assumption.
      apply parse_date_ymd_hit_some;
        [now apply findall_date_shape with (v := text_of v) | auto].
  - intros v hit Hhit.
    apply (parse_date_ymd_hit hit (findall_date_shape _ _ Hhit)).
Qed.

Lemma extract_dates_drops_invalid_hits_witness :
  parse_date_ymd "2024-13-45"
  = match Calendar.check_date_fields (year_of "2024-13-45")
            (month_of "2024-13-45") (day_of "2024-13-45") with
    | Ok _ =>
        Some (utc_midnight (year_of "2024-13-45") (month_of "2024-13-45")
                (day_of "2024-13-45"))
    | Raise _ => None
    end.
Proof.
  apply (proj1 (proj2 extract_dates_drops_invalid_hits)
           "note: 2024-13-45" "2024-13-45").
  vm_compute. left. reflexivity.
Defined.

(** C10: extraction and matching see a property text only through the hits
    of the pattern: a hit is a text [20dd-dd-dd] standing in the value with
    no word character (letter, digit, underscore) just before it or just
    after it.  So every extracted date lies between 2000-01-01 and
    2099-12-31 and comes from such an occurrence, and a target that is
    matched has that shape and such an occurrence; a date of another
    century, or one glued to a word character, gives neither. *)
Theorem date_pattern_only :
  (forall v h, In h (DATE_RE_findall v) <-> exists i, occurs_at v i h)
  /\ (forall (p : option props) (d : datetime),
        In d (extract_dates_from_properties p) ->
        (exists v i h,
            In v (values p) /\ v <> PNone
            /\ occurs_at (text_of v) i h
            /\ parse_date_ymd h = Some d)
        /\ ordinal (utc_midnight 2000 1 1) <= ordinal d
           <= ordinal (utc_midnight 2099 12 31))
  /\ (forall (p : option props) (t : string),
        feature_has_target_date p t = true ->
        date_shape t = true
        /\ exists v i,
             In v (values p) /\ v <> PNone /\ occurs_at (text_of v) i t)
  /\ DATE_RE_findall "1999-12-31 2100-01-01 x2024-05-02 2024-05-02_ 12024-05-02 2024-05-021"
     = []
  /\ feature_has_target_date
       (Some [("a"%string, PStr "1999-12-31"); ("b"%string, PStr "v2024-05-02")])
       "1999-12-31" = false
  /\ feature_has_target_date
       (Some [("a"%string, PStr "1999-12-31"); ("b"%string, PStr "v2024-05-02")])
       "2024-05-02" = false.
Proof.
  split; [exact DATE_RE_findall_spec|].
  split; [|split; [|repeat split]].
  - intros p d Hd. unfold extract_dates_from_properties in Hd.
    apply in_extract_dates_from_values in Hd.
    destruct Hd as (v & hit & Hv & Hne & Hhit & Hp).
    pose proof (findall_date_shape _ _ Hhit) as Hshape.
    apply DATE_RE_findall_spec in Hhit. destruct Hhit as (i & Hocc).
    split; [exists v, i, hit; auto|].
    destruct (parse_date_ymd_hit hit Hshape) as [_ Hyear].
    apply parse_date_ymd_hit_some in Hp; [|exact Hshape].
    destruct Hp as [Hok ->].
    now apply century_ordinal_bounds.
  - intros p t Ht. unfold feature_has_target_date in Ht.
    apply values_have_target_date_spec in Ht.
    destruct Ht as (v & Hv & Hne & Hhit).
    split; [now apply findall_date_shape with (v := text_of v)|].
    apply DATE_RE_findall_spec in Hhit. destruct Hhit as (i & Hocc).
    exists v, i. auto.
Qed.

Lemma date_pattern_only_witness :
  date_shape "2024-05-02" = true
  /\ exists v i,
       In v (values (Some [("start"%string, PStr "(2024-05-02)")]))
       /\ v <> PNone /\ occurs_at (text_of v) i "2024-05-02".
Proof.
  apply (proj1 (proj2 (proj2 date_pattern_only))). reflexivity.
Defined.

(** C2, as the code has it: [feature_has_target_date] is true exactly when
    some property value other than None, as text, holds the target at a
    place where it reads [20dd-dd-dd] with no word character just before
    or just after it.  The target is then a substring of that value; the
    value [valid_from=2024-05-02 00:00Z] matches the target 2024-05-02 and
    not 2024-05-03, and [valid_from=2024-05-02T00:00Z] does not match
    2024-05-03. *)
Theorem feature_has_target_date_spec :
  (forall (p : option props) (t : string),
      feature_has_target_date p t = true
      <-> exists v i,
            In v (values p) /\ v <> PNone /\ occurs_at (text_of v) i t)
  /\ (forall (p : option props) (t : string),
        feature_has_target_date p t = true ->
        exists v, In v (values p) /\ v <> PNone
                  /\ contains t (text_of v) = true)
  /\ feature_has_target_date
       (Some [("validity"%string, PStr "valid_from=2024-05-02 00:00Z")])
       "2024-05-02" = true
  /\ feature_has_target_date
       (Some [("validity"%string, PStr "valid_from=2024-05-02 00:00Z")])
       "2024-05-03" = false
  /\ feature_has_target_date
       (Some [("validity"%string, PStr "valid_from=2024-05-02T00:00Z")])
       "2024-05-03" = false.
Proof.
  split; [exact feature_has_target_date_occurs|].
  split; [|repeat split; reflexivity].
  intros p t Ht. apply feature_has_target_date_occurs in Ht.
  destruct Ht as (v & i & Hv & Hne & Hocc).
  exists v. repeat split; try assumption.
  now apply occurs_at_contains with (i := i).
Qed.

Lemma feature_has_target_date_spec_witness :
  exists v,
    In v (values (Some [("validity"%string,
                         PStr "valid_from=2024-05-02 00:00Z")]))
    /\ v <> PNone /\ contains "2024-05-02" (text_of v) = true.
Proof.
  apply (proj1 (proj2 feature_has_target_date_spec)). reflexivity.
Defined.

(** C2 as stated fails, on its own example: the value
    [valid_from=2024-05-02T00:00Z] contains the target 2024-05-02 as a
    substring, but the letter T right after it is a word character, so the
    pattern's closing [\b] does not hold there: [findall] has no hit and
    the feature is not matched. *)
Lemma feature_has_target_date_not_substring :
  contains "2024-05-02" "valid_from=2024-05-02T00:00Z" = true
  /\ DATE_RE_findall "valid_from=2024-05-02T00:00Z" = []
  /\ feature_has_target_date
       (Some [("validity"%string, PStr "valid_from=2024-05-02T00:00Z")])
       "2024-05-02" = false.
Proof. repeat split; reflexivity. Qed.

(** ** The coverage read-out *)

Section CoverageProperties.

Context {G : Type} `{Geometry G}.

Lemma aoi_rows_some (aoi : option (list G)) (rows : list G) :
  aoi_rows aoi = Some rows <-> aoi = Some rows /\ rows <> [].
Proof.
  destruct aoi as [[|g tl]|]; simpl.
  - split; [discriminate | intros [[= <-] Hne]; congruence].
  - split.
    + intros [= <-]. split; [reflexivity | discriminate].
    + intros [[= <-] _]. reflexivity.
  - split; [discriminate | intros [Heq _]; discriminate Heq].
Qed.

Lemma contributes_matching (day : string) (f : feature G) :
  feature_has_target_date (properties f) day = true -> day <> EmptyString.
Proof.
  intros Hf ->. apply feature_has_target_date_occurs in Hf.
  destruct Hf as (v & i & _ & _ & _ & Hshape & _). discriminate Hshape.
Qed.

(** One turn of the loop sets [coverage_union] exactly when the satellite
    contributes, and never clears it. *)
Lemma satellite_step_coverage (aoi : option (list G)) (st : map_state G)
    (sat : satellite G) :
  (coverage_union (satellite_step aoi st sat) <> None
   <-> coverage_union st <> None \/ contributes aoi sat).
Proof.
  unfold satellite_step, contributes.
  destruct (ref_day sat) as [day|] eqn:Eday.
  2:{ split; [auto|]. intros [Hst|(d & rows & Hd & _)]; congruence. }
  destruct ((day =? "")%string
            || match plan sat with [] => true | _ :: _ => false end)%bool
    eqn:Eskip.
  { split; [auto|]. intros [Hst|(d & rows & Hd & Hrows & f & Hf & Hm & Hi)];
      [exact Hst|]. exfalso.
    injection Hd as <-. apply orb_true_iff in Eskip.
    destruct Eskip as [Eempty|Eplan].
    - apply String.eqb_eq in Eempty. now apply contributes_matching in Hm.
    - destruct (plan sat); [destruct Hf | discriminate Eplan]. }
  set (sub := filter (fun f => feature_has_target_date (properties f) day)
                (plan sat)).
  assert (Hsub : forall f, In f sub
                           <-> In f (plan sat)
                               /\ feature_has_target_date (properties f) day
                                  = true)
    by (intros f; apply filter_In).
  destruct sub as [|f0 sub'] eqn:Esub.
  { split; [auto|]. intros [Hst|(d & rows & Hd & Hrows & f & Hf & Hm & Hi)];
      [exact Hst|]. exfalso.
    injection Hd as <-. apply (proj2 (Hsub f)). auto. }
  rewrite <- Esub in *. clear Esub f0 sub'.
  destruct (aoi_rows aoi) as [rows|] eqn:Erows.
  - apply aoi_rows_some in Erows. destruct Erows as [-> Hne].
    set (sub2 := filter (fun f => intersects (geometry f) (unary_union rows))
                   sub).
    assert (Hsub2 : forall f, In f sub2
                              <-> In f sub
                                  /\ intersects (geometry f)
                                       (unary_union rows) = true)
      by (intros f; apply filter_In).
    destruct sub2 as [|f0 sub2'] eqn:Esub2.
    + split; [auto|].
      intros [Hst|(d & rows' & Hd & Hrows & f & Hf & Hm & Hi)]; [exact Hst|].
      exfalso. injection Hd as <-. destruct Hrows as [[= <-] _].
      apply (proj2 (Hsub2 f)). split; [apply Hsub; auto | exact Hi].
    + split.
      * intros _. right.
        assert (Hf0 : In f0 (f0 :: sub2')) by now left.
        apply Hsub2 in Hf0. destruct Hf0 as [Hf0 Hi].
        apply Hsub in Hf0. destruct Hf0 as [Hf0 Hm].
        exists day, rows. split; [reflexivity|]. split; [auto|].
        exists f0. auto.
      * intros _. cbn [coverage_union].
        destruct (coverage_union st); discriminate.
  - split.
    + destruct sub; auto.
    + intros [Hst|(d & rows & Hd & Hrows & _)].
      * destruct sub; auto.
      * exfalso. apply aoi_rows_some in Hrows. congruence.
Qed.

Lemma satellite_loop_coverage (aoi : option (list G))
    (sats : list (satellite G)) (st : map_state G) :
  coverage_union (fold_left (satellite_step aoi) sats st) <> None
  <-> coverage_union st <> None
      \/ exists sat, In sat sats /\ contributes aoi sat.
Proof.
  revert st. induction sats as [|sat tl IH]; intros st; cbn [fold_left].
  - split; [auto | intros [Hst|(sat & [] & _)]; exact Hst].
  - rewrite IH, satellite_step_coverage. split.
    + intros [[Hst|Hc]|(s & Hs & Hc)]; [auto | right | right].
      * exists sat. split; [now left | exact Hc].
      * exists s. split; [now right | exact Hc].
    + intros [Hst|(s & [<-|Hs] & Hc)]; [auto | auto | right; eauto].
Qed.

(** C9: a coverage percentage is shown only when the AOI is present (and
    not empty) and some satellite contributed a feature that carries its
    reference day and intersects the AOI.  With an AOI present and no such
    intersecting feature, [coverage_union] stays None and nothing is shown
    (no zero percentage).  When the area computation raises, nothing is
    shown either, and no error leaves the script.  Conversely, with a
    contribution the text shown is that of the area computation. *)
Theorem coverage_readout_only_when_covered (aoi : option (list G))
    (sats : list (satellite G)) :
  (forall text,
      coverage_readout aoi sats = Some text ->
      (exists rows, aoi = Some rows /\ rows <> [])
      /\ exists sat, In sat sats /\ contributes aoi sat)
  /\ (forall rows,
        aoi = Some rows ->
        (forall sat day f,
            In sat sats -> ref_day sat = Some day -> In f (plan sat) ->
            feature_has_target_date (properties f) day = true ->
            intersects (geometry f) (unary_union rows) = false) ->
        coverage_union (satellite_loop aoi sats) = None
        /\ coverage_readout aoi sats = None)
  /\ (forall rows cu e,
        aoi = Some rows ->
        coverage_union (satellite_loop aoi sats) = Some cu ->
        coverage_percent_text (unary_union rows) cu = Raise e ->
        coverage_readout aoi sats = None)
  /\ (forall rows,
        aoi = Some rows ->
        (exists sat, In sat sats /\ contributes aoi sat) ->
        exists cu,
          coverage_union (satellite_loop aoi sats) = Some cu
          /\ coverage_readout aoi sats
             = except_none (coverage_percent_text (unary_union rows) cu)).
Proof.
  pose proof (satellite_loop_coverage aoi sats (mkMapState None [])) as Hloop.
  fold (satellite_loop aoi sats) in Hloop. cbn [coverage_union] in Hloop.
  split; [|split; [|split]].
  - intros text Htext. unfold coverage_readout in Htext.
    destruct aoi as [rows|]; [|discriminate Htext].
    destruct (coverage_union (satellite_loop (Some rows) sats)) as [cu|]
      eqn:Ecu; [|discriminate Htext].
    destruct (proj1 Hloop) as [Habs|(sat & Hsat & Hc)];
      [discriminate | congruence |].
    split; [|exists sat; auto].
    destruct Hc as (day & rows' & _ & [[= <-] Hne] & _).
    exists rows. auto.
  - intros rows -> Hnone.
    assert (Hcu : coverage_union (satellite_loop (Some rows) sats) = None).
    { destruct (coverage_union (satellite_loop (Some rows) sats)) as [cu|]
        eqn:Ecu; [|reflexivity]. exfalso.
      destruct (proj1 Hloop) as [Habs|(sat & Hsat & Hc)];
        [discriminate | congruence |].
      destruct Hc as (day & rows' & Hday & [[= <-] Hne] & f & Hf & Hm & Hi).
      rewrite (Hnone sat day f Hsat Hday Hf Hm) in Hi. discriminate Hi. }
    split; [exact Hcu|]. unfold coverage_readout. now rewrite Hcu.
  - intros rows cu e -> Hcu Hraise. unfold coverage_readout.
    now rewrite Hcu, Hraise.
  - intros rows -> Hex.
    destruct (coverage_union (satellite_loop (Some rows) sats)) as [cu|]
      eqn:Ecu.
    + exists cu. split; [reflexivity|]. unfold coverage_readout.
      now rewrite Ecu.
    + exfalso. apply (proj2 Hloop); auto.
Qed.

End CoverageProperties.

Lemma coverage_readout_only_when_covered_witness :
  (exists rows, Some [[1; 2]%nat] = Some rows /\ rows <> [])
  /\ exists sat,
       In sat
         [mkSatellite "S1A" (Some "2024-05-02"%string)
            [mkFeature (Some [("date"%string, PStr "2024-05-02")])
               [2; 3]%nat]]
       /\ contributes (Some [[1; 2]%nat]) sat.
Proof.
  apply (proj1 (coverage_readout_only_when_covered (Some [[1; 2]%nat])
                  [mkSatellite "S1A" (Some "2024-05-02"%string)
                     [mkFeature (Some [("date"%string, PStr "2024-05-02")])
                        [2; 3]%nat]])
           "covered"%string).
  reflexivity.
Defined.

(** The script run on the grid instance: a feature that carries the day but
    lies outside the AOI gives no read-out, one that meets the AOI gives
    one, and a failing area computation gives none. *)
Example grid_no_intersection :
  coverage_readout (Some [[1; 2]%nat])
    [mkSatellite "S1A" (Some "2024-05-02"%string)
       [mkFeature (Some [("date"%string, PStr "2024-05-02")]) [7; 8]%nat]]
  = None.
Proof. reflexivity. Qed.

Example grid_intersection :
  coverage_readout (Some [[1; 2]%nat])
    [mkSatellite "S1A" (Some "2024-05-02"%string)
       [mkFeature (Some [("date"%string, PStr "2024-05-02")]) [2; 3]%nat]]
  = Some "covered"%string.
Proof. reflexivity. Qed.

Example grid_area_failure :
  coverage_readout (Some [[0; 1]%nat])
    [mkSatellite "S1A" (Some "2024-05-02"%string)
       [mkFeature (Some [("date"%string, PStr "2024-05-02")]) [0; 3]%nat]]
  = None.
Proof. reflexivity. Qed.

Example grid_no_aoi :
  coverage_readout None
    [mkSatellite "S1A" (Some "2024-05-02"%string)
       [mkFeature (Some [("date"%string, PStr "2024-05-02")]) [2; 3]%nat]]
  = None.
Proof. reflexivity. Qed.

(** ** The embedding on concrete inputs *)

Example word_characters_below_256 :
  filter (fun n => is_word (ascii_of_nat n)) (seq 0 256)
  = (seq 48 10 ++ seq 65 26 ++ [95] ++ seq 97 26
     ++ [170; 178; 179; 181; 185; 186; 188; 189; 190]
     ++ seq 192 23 ++ seq 216 31 ++ seq 248 8)%nat.
Proof. vm_compute. reflexivity. Qed.

Example digits_below_256 :
  filter (fun n => is_digit (ascii_of_nat n)) (seq 0 256) = seq 48 10.
Proof. vm_compute. reflexivity. Qed.

Example findall_two_hits :
  DATE_RE_findall "from 2024-02-30/2024-05-02."
  = ["2024-02-30"%string; "2024-05-02"%string].
Proof. reflexivity. Qed.

Example parse_short_fields :
  parse_date_ymd "2024-1-5" = Some (utc_midnight 2024 1 5)
  /\ parse_date_ymd "2024-01-3" = Some (utc_midnight 2024 1 3)
  /\ parse_date_ymd "2024-1-05" = Some (utc_midnight 2024 1 5).
Proof. repeat split; reflexivity. Qed.

Example parse_first_ten_characters :
  parse_date_ymd "2024-05-02T00:00Z" = Some (utc_midnight 2024 5 2)
  /\ parse_date_ymd "2024-10-5x" = None.
Proof. split; reflexivity. Qed.

Example parse_rejects :
  parse_date_ymd "0000-01-01" = None
  /\ parse_date_ymd "2024-00-10" = None
  /\ parse_date_ymd "2024-01-00" = None
  /\ parse_date_ymd "2024-01-32" = None
  /\ parse_date_ymd "2023-02-29" = None
  /\ parse_date_ymd "2024-02-29" = Some (utc_midnight 2024 2 29).
Proof. repeat split; reflexivity. Qed.

Example ordinals :
  ordinal (utc_midnight 1 1 1) = 1
  /\ ordinal (utc_midnight 2024 1 2) = 738887
  /\ ordinal (utc_midnight 9999 12 31) = Calendar.MAXORDINAL.
Proof. repeat split; reflexivity. Qed.

Example resolver_zero_period :
  get_reference_date (utc_midnight 2024 1 20) [utc_midnight 2024 1 1] 0
  = Raise ZeroDivisionError.
Proof. reflexivity. Qed.

Example resolver_before_all_references :
  get_reference_date (utc_midnight 2023 12 20)
    [utc_midnight 2024 1 1; utc_midnight 2024 1 13] 12
  = Ok (Some (utc_midnight 2024 1 1)).
Proof. reflexivity. Qed.

Example reference_dates_example :
  reference_dates_of
    [Some [("end"%string, PStr "2024-01-13"); ("n"%string, POther "12")];
     None;
     Some [("start"%string, PStr "2024-01-01"); ("x"%string, PNone);
           ("dup"%string, PStr "2024-01-13 2024-13-01")]]
  = [utc_midnight 2024 1 1; utc_midnight 2024 1 13].
Proof. reflexivity. Qed.

(** ** Formatting a date and reading it back *)

Lemma in_z_range (lo : Z) (len : nat) (n : Z) :
  lo <= n < lo + Z.of_nat len -> In n (z_range lo len).
Proof.
  revert lo. induction len as [|k IH]; intros lo Hn; [lia|].
  cbn [z_range]. destruct (Z.eq_dec lo n) as [->|Hne]; [now left|].
  right. apply IH. lia.
Qed.

Lemma toordinal_round_trip_century :
  forallb toordinal_round_trip_ok century_ordinals = true.
Proof. vm_compute. reflexivity. Qed.

Lemma fromordinal_round_trip_century :
  forallb (fun y =>
             forallb (fun m =>
                        forallb (fromordinal_round_trip_ok y m)
                          (z_range 1 31))
               (z_range 1 12))
    (z_range 2000 100) = true.
Proof. vm_compute. reflexivity. Qed.

(** [fromordinal(toordinal)] on the dates of 2000..2099. *)
Lemma ord2ymd_ymd2ord (y m d : Z) :
  2000 <= y <= 2099 ->
  Calendar.check_date_fields y m d = Ok tt ->
  Fromordinal.ord2ymd (Calendar.ymd2ord y m d) = (y, m, d).
Proof.
  intros Hy Hok.
  assert (Hm : 1 <= m <= 12 /\ 1 <= d <= 31).
  { rewrite check_date_fields_spec in Hok.
    pose proof (days_in_month_le_31 y m).
    destruct ((1 <=? y) && (y <=? 9999) && ((1 <=? m) && (m <=? 12))
              && ((1 <=? d) && (d <=? Calendar.days_in_month y m)))%bool
      eqn:E; [lia | discriminate Hok]. }
  pose proof fromordinal_round_trip_century as Hall.
  rewrite forallb_forall in Hall.
  specialize (Hall y (in_z_range 2000 100 y ltac:(lia))).
  rewrite forallb_forall in Hall.
  specialize (Hall m (in_z_range 1 12 m ltac:(lia))).
  rewrite forallb_forall in Hall.
  specialize (Hall d (in_z_range 1 31 d ltac:(lia))).
  unfold fromordinal_round_trip_ok in Hall. rewrite Hok in Hall.
  destruct (Fromordinal.ord2ymd (Calendar.ymd2ord y m d)) as [[y' m'] d'].
  f_equal; [f_equal|]; lia.
Qed.

(** [toordinal(fromordinal)] on the days of 2000..2099. *)
Lemma ymd2ord_ord2ymd (n : Z) :
  730120 <= n <= 766644 ->
  exists y m d,
    Fromordinal.ord2ymd n = (y, m, d)
    /\ 2000 <= y <= 2099
    /\ Calendar.check_date_fields y m d = Ok tt
    /\ Calendar.ymd2ord y m d = n.
Proof.
  intros Hn. pose proof toordinal_round_trip_century as Hall.
  rewrite forallb_forall in Hall.
  assert (Hin : In n century_ordinals).
  { apply (in_z_range 730120 (Z.to_nat 36525)). lia. }
  specialize (Hall n Hin). unfold toordinal_round_trip_ok in Hall.
  destruct (Fromordinal.ord2ymd n) as [[y m] d].
  exists y, m, d. split; [reflexivity|].
  destruct (Calendar.check_date_fields y m d) as [[]|e];
    [|rewrite andb_false_r in Hall; discriminate Hall].
  apply andb_true_iff in Hall. destruct Hall as [Hy Heq].
  split; [lia|]. split; [reflexivity | lia].
Qed.

Lemma digit_char_spec (j : Z) :
  0 <= j <= 9 ->
  is_digit (digit_char j) = true /\ digit_val (digit_char j) = j.
Proof.
  intros Hj.
  assert (Hc : j = 0 \/ j = 1 \/ j = 2 \/ j = 3 \/ j = 4 \/ j = 5 \/ j = 6
               \/ j = 7 \/ j = 8 \/ j = 9) by lia.
  repeat (destruct Hc as [->|Hc]); try subst j; split; reflexivity.
Qed.

Lemma pad2_of_digits (a b : ascii) :
  is_digit a = true -> is_digit b = true ->
  pad2 (10 * digit_val a + digit_val b) = String a (String b EmptyString).
Proof.
  intros Ha Hb. digit_cases Ha; digit_cases Hb; reflexivity.
Qed.

Lemma century_year_of_digits (a b : ascii) :
  is_digit a = true -> is_digit b = true ->
  decimal_text 4 (2000 + 10 * digit_val a + digit_val b)
  = String "2" (String "0" (String a (String b EmptyString))).
Proof.
  intros Ha Hb. digit_cases Ha; digit_cases Hb; reflexivity.
Qed.

Lemma format_ymd_of_digits (c2 c3 c5 c6 c8 c9 : ascii) :
  is_digit c2 = true -> is_digit c3 = true -> is_digit c5 = true ->
  is_digit c6 = true -> is_digit c8 = true -> is_digit c9 = true ->
  format_ymd (2000 + 10 * digit_val c2 + digit_val c3)
    (10 * digit_val c5 + digit_val c6) (10 * digit_val c8 + digit_val c9)
  = date_text c2 c3 c5 c6 c8 c9 EmptyString.
Proof.
  intros H2 H3 H5 H6 H8 H9. unfold format_ymd.
  rewrite century_year_of_digits, !pad2_of_digits by assumption.
  reflexivity.
Qed.

(** The text of a date-shaped hit is the format of its own fields. *)
Lemma format_ymd_fields (h : string) :
  date_shape h = true ->
  format_ymd (year_of h) (month_of h) (day_of h) = h.
Proof.
  intros Hshape. apply date_shape_view in Hshape.
  destruct Hshape as (c2 & c3 & c5 & c6 & c8 & c9 & -> & H2 & H3 & H5 & H6
                      & H8 & H9).
  destruct (fields_of_date_text c2 c3 c5 c6 c8 c9) as (-> & -> & ->).
  now apply format_ymd_of_digits.
Qed.

(** The format of a date of 2000..2099 is date-shaped and its fields read
    back. *)
Lemma format_ymd_century (y m d : Z) :
  2000 <= y <= 2099 -> 0 <= m <= 99 -> 0 <= d <= 99 ->
  date_shape (format_ymd y m d) = true
  /\ year_of (format_ymd y m d) = y
  /\ month_of (format_ymd y m d) = m
  /\ day_of (format_ymd y m d) = d.
Proof.
  intros Hy Hm Hd.
  assert (Hsplit : forall k, 0 <= k <= 99 ->
             exists a b, is_digit a = true /\ is_digit b = true
                         /\ k = 10 * digit_val a + digit_val b).
  { intros k Hk.
    assert (Hq : 0 <= k / 10 <= 9) by (Z.div_mod_to_equations; lia).
    assert (Hr : 0 <= k mod 10 <= 9) by (Z.div_mod_to_equations; lia).
    destruct (digit_char_spec _ Hq) as [Ha Hva].
    destruct (digit_char_spec _ Hr) as [Hb Hvb].
    exists (digit_char (k / 10)), (digit_char (k mod 10)).
    rewrite Hva, Hvb. repeat split; try assumption.
    Z.div_mod_to_equations; lia. }
  destruct (Hsplit (y - 2000) ltac:(lia)) as (c2 & c3 & H2 & H3 & Ey).
  destruct (Hsplit m Hm) as (c5 & c6 & H5 & H6 & ->).
  destruct (Hsplit d Hd) as (c8 & c9 & H8 & H9 & ->).
  replace y with (2000 + 10 * digit_val c2 + digit_val c3) by lia.
  rewrite format_ymd_of_digits by assumption.
  destruct (fields_of_date_text c2 c3 c5 c6 c8 c9) as (-> & -> & ->).
  split; [|auto].
  apply date_shape_view. do 6 eexists. split; [reflexivity|]. auto 10.
Qed.

Lemma strftime_century_parses (d : datetime) :
  micros d = 0 ->
  ordinal (utc_midnight 2000 1 1) <= ordinal d
    <= ordinal (utc_midnight 2099 12 31) ->
  date_shape (strftime_ymd d) = true
  /\ parse_date_ymd (strftime_ymd d) = Some d.
Proof.
  intros Hmid Hrange.
  change (ordinal (utc_midnight 2000 1 1)) with 730120 in Hrange.
  change (ordinal (utc_midnight 2099 12 31)) with 766644 in Hrange.
  destruct (ymd2ord_ord2ymd _ Hrange) as (y & m & dd & Hord & Hy & Hok & Hn).
  unfold strftime_ymd. rewrite Hord.
  assert (Hmd : 0 <= m <= 99 /\ 0 <= dd <= 99).
  { rewrite check_date_fields_spec in Hok.
    pose proof (days_in_month_le_31 y m).
    destruct ((1 <=? y) && (y <=? 9999) && ((1 <=? m) && (m <=? 12))
              && ((1 <=? dd) && (dd <=? Calendar.days_in_month y m)))%bool
      eqn:E; [lia | discriminate Hok]. }
  destruct (format_ymd_century y m dd Hy (proj1 Hmd) (proj2 Hmd))
    as (Hshape & Ey & Em & Ed).
  split; [exact Hshape|].
  apply parse_date_ymd_hit_some; [exact Hshape|].
  rewrite Ey, Em, Ed. split; [exact Hok|].
  destruct d as [o t]. cbn [ordinal micros] in *. subst t.
  unfold utc_midnight. now rewrite Hn.
Qed.

(** X1: a midnight UTC datetime between 2000-01-01 and 2099-12-31, written
    with [strftime("%Y-%m-%d")], is a text of the shape the pattern
    recognises, and [parse_date_ymd] reads the same datetime back. *)
Theorem parse_strftime_round_trip (d : datetime) :
  micros d = 0 ->
  ordinal (utc_midnight 2000 1 1) <= ordinal d
    <= ordinal (utc_midnight 2099 12 31) ->
  date_shape (strftime_ymd d) = true
  /\ parse_date_ymd (strftime_ymd d) = Some d.
Proof. exact (strftime_century_parses d). Qed.

Lemma parse_strftime_round_trip_witness :
  date_shape (strftime_ymd (utc_midnight 2024 2 29)) = true
  /\ parse_date_ymd (strftime_ymd (utc_midnight 2024 2 29))
     = Some (utc_midnight 2024 2 29).
Proof.
  apply (parse_strftime_round_trip (utc_midnight 2024 2 29)).
  - reflexivity.
  - vm_compute. split; discriminate.
Defined.

Lemma parsed_hit_strftime (h : string) (d : datetime) :
  date_shape h = true ->
  parse_date_ymd h = Some d ->
  strftime_ymd d = h.
Proof.
  intros Hshape Hparse.
  destruct (parse_date_ymd_hit h Hshape) as [_ Hyear].
  apply parse_date_ymd_hit_some in Hparse; [|exact Hshape].
  destruct Hparse as [Hok ->].
  unfold strftime_ymd, utc_midnight. cbn [ordinal].
  rewrite ord2ymd_ymd2ord by assumption.
  now apply format_ymd_fields.
Qed.

(** X2: when a text [20dd-dd-dd] written with the digits 0-9 parses, the
    datetime obtained is written back by [strftime("%Y-%m-%d")] as that
    same text. *)
Theorem strftime_parse_round_trip (h : string) (d : datetime) :
  date_shape h = true ->
  parse_date_ymd h = Some d ->
  strftime_ymd d = h.
Proof. exact (parsed_hit_strftime h d). Qed.

Lemma strftime_parse_round_trip_witness :
  strftime_ymd (utc_midnight 2024 5 2) = "2024-05-02"%string.
Proof.
  apply (strftime_parse_round_trip "2024-05-02" (utc_midnight 2024 5 2));
    reflexivity.
Defined.

(** ** From reference dates back to features *)

(** A feature is matched by the day of a date exactly when one of its
    values holds that day in digits 0-9 between non-word borders. *)
Lemma target_day_iff_occurrence (p : option props) (d : datetime) :
  micros d = 0 ->
  ordinal (utc_midnight 2000 1 1) <= ordinal d
    <= ordinal (utc_midnight 2099 12 31) ->
  (feature_has_target_date p (strftime_ymd d) = true
   <-> exists v i h,
         In v (values p) /\ v <> PNone
         /\ occurs_at (text_of v) i h /\ parse_date_ymd h = Some d).
Proof.
  intros Hmid Hrange.
  destruct (strftime_century_parses d Hmid Hrange) as [Hshape Hparse].
  rewrite feature_has_target_date_occurs. split.
  - intros (v & i & Hv & Hne & Hocc). exists v, i, (strftime_ymd d). auto.
  - intros (v & i & h & Hv & Hne & Hocc & Hp).
    assert (Hh : date_shape h = true) by (destruct Hocc as (_ & Hs & _); auto).
    exists v, i. split; [exact Hv|]. split; [exact Hne|].
    rewrite (parsed_hit_strftime h d Hh Hp). exact Hocc.
Qed.

(** A feature matched by the day of a date has that date among the dates
    extracted from it. *)
Lemma target_day_extracted (p : option props) (d : datetime) :
  micros d = 0 ->
  ordinal (utc_midnight 2000 1 1) <= ordinal d
    <= ordinal (utc_midnight 2099 12 31) ->
  feature_has_target_date p (strftime_ymd d) = true ->
  In d (extract_dates_from_properties p).
Proof.
  intros Hmid Hrange Hf.
  destruct (strftime_century_parses d Hmid Hrange) as [Hshape Hparse].
  unfold feature_has_target_date in Hf.
  apply values_have_target_date_spec in Hf.
  destruct Hf as (v & Hv & Hne & Hhit).
  unfold extract_dates_from_properties.
  apply in_extract_dates_from_values.
  exists v, (strftime_ymd d). auto.
Qed.

Lemma extracted_is_century_midnight (p : option props) (d : datetime) :
  In d (extract_dates_from_properties p) ->
  micros d = 0
  /\ ordinal (utc_midnight 2000 1 1) <= ordinal d
     <= ordinal (utc_midnight 2099 12 31).
Proof.
  intros Hd. unfold extract_dates_from_properties in Hd.
  apply in_extract_dates_from_values in Hd.
  destruct Hd as (v & hit & Hv & Hne & Hhit & Hp).
  pose proof (findall_date_shape _ _ Hhit) as Hshape.
  destruct (parse_date_ymd_hit hit Hshape) as [_ Hyear].
  apply parse_date_ymd_hit_some in Hp; [|exact Hshape].
  destruct Hp as [Hok ->]. split; [reflexivity|].
  now apply century_ordinal_bounds.
Qed.

Lemma in_reference_dates_of (feats : list (option props)) (d : datetime) :
  In d (reference_dates_of feats)
  <-> exists f, In f feats /\ In d (extract_dates_from_properties f).
Proof.
  unfold reference_dates_of, py_set.
  rewrite py_sort_In, nodup_In, in_flat_map. reflexivity.
Qed.

Lemma in_combine_seq {A : Type} (l : list A) (start i : nat) (x : A) :
  In (i, x) (combine (seq start (List.length l)) l)
  <-> (start <= i)%nat /\ nth_error l (i - start) = Some x.
Proof.
  revert start. induction l as [|a tl IH]; intros start.
  - simpl. split; [intros [] | intros [_ Hn]].
    destruct (i - start)%nat; discriminate Hn.
  - cbn [List.length seq combine In]. rewrite IH. split.
    + intros [[= <- <-]|[Hle Hn]].
      * split; [lia|]. now rewrite Nat.sub_diag.
      * split; [lia|].
        replace (i - start)%nat with (S (i - S start)) by lia. exact Hn.
    + intros [Hle Hn].
      destruct (Nat.eq_dec i start) as [->|Hne].
      * left. rewrite Nat.sub_diag in Hn. simpl in Hn. congruence.
      * right. split; [lia|].
        replace (i - start)%nat with (S (i - S start)) in Hn by lia.
        exact Hn.
Qed.

Lemma in_keep_idxs (feats : list (option props)) (day : string) (i : nat) :
  In i (keep_idxs feats day)
  <-> exists f, nth_error feats i = Some f
                /\ feature_has_target_date f day = true.
Proof.
  unfold keep_idxs. rewrite in_map_iff. split.
  - intros ([j f] & Hfst & Hin). cbn [fst] in Hfst. subst j.
    apply filter_In in Hin. destruct Hin as [Hin Hf].
    apply in_combine_seq in Hin. rewrite Nat.sub_0_r in Hin.
    exists f. split; [tauto | exact Hf].
  - intros (f & Hn & Hf). exists (i, f). split; [reflexivity|].
    apply filter_In. split; [|exact Hf].
    apply in_combine_seq. rewrite Nat.sub_0_r. split; [lia | exact Hn].
Qed.

Lemma keep_idxs_nonempty (feats : list (option props)) (day : string) :
  keep_idxs feats day <> []
  <-> exists f, In f feats /\ feature_has_target_date f day = true.
Proof.
  split.
  - intros Hne. destruct (keep_idxs feats day) as [|i tl] eqn:E;
      [congruence|].
    assert (Hi : In i (keep_idxs feats day)) by (rewrite E; now left).
    apply in_keep_idxs in Hi. destruct Hi as (f & Hn & Hf).
    exists f. split; [eapply nth_error_In; eassumption | exact Hf].
  - intros (f & Hin & Hf) E.
    destruct (In_nth_error _ _ Hin) as (i & Hn).
    assert (Hi : In i (keep_idxs feats day))
      by (apply in_keep_idxs; eauto).
    rewrite E in Hi. destruct Hi.
Qed.

(** X3: for a midnight UTC date d of 2000..2099, a feature is matched by
    d written as YYYY-MM-DD exactly when one of its property values (other
    than None) holds, with no word character just before or just after, a
    text [20dd-dd-dd] in the digits 0-9 that parses to d; and a feature
    matched by that day always has d among the dates extracted from its
    properties. *)
Theorem target_date_matches_iff_occurrence (p : option props)
    (d : datetime) :
  micros d = 0 ->
  ordinal (utc_midnight 2000 1 1) <= ordinal d
    <= ordinal (utc_midnight 2099 12 31) ->
  (feature_has_target_date p (strftime_ymd d) = true
   <-> exists v i h,
         In v (values p) /\ v <> PNone
         /\ occurs_at (text_of v) i h /\ parse_date_ymd h = Some d)
  /\ (feature_has_target_date p (strftime_ymd d) = true ->
      In d (extract_dates_from_properties p)).
Proof.
  intros Hmid Hrange. split.
  - now apply target_day_iff_occurrence.
  - now apply target_day_extracted.
Qed.

Lemma target_date_matches_iff_occurrence_witness :
  (feature_has_target_date
     (Some [("start"%string, PStr "from 2024-05-02 on")])
     (strftime_ymd (utc_midnight 2024 5 2)) = true
   <-> exists v i h,
         In v (values (Some [("start"%string, PStr "from 2024-05-02 on")]))
         /\ v <> PNone
         /\ occurs_at (text_of v) i h
         /\ parse_date_ymd h = Some (utc_midnight 2024 5 2))
  /\ (feature_has_target_date
        (Some [("start"%string, PStr "from 2024-05-02 on")])
        (strftime_ymd (utc_midnight 2024 5 2)) = true ->
      In (utc_midnight 2024 5 2)
        (extract_dates_from_properties
           (Some [("start"%string, PStr "from 2024-05-02 on")]))).
Proof.
  apply (target_date_matches_iff_occurrence
           (Some [("start"%string, PStr "from 2024-05-02 on")])
           (utc_midnight 2024 5 2)).
  - reflexivity.
  - vm_compute. split; discriminate.
Defined.

(** X4: for a midnight UTC date d of 2000..2099, the day of d keeps some
    feature of a plan ([keep_idxs] is not empty) exactly when a property
    value of some feature holds, with no word character just before or
    just after, a text [20dd-dd-dd] in the digits 0-9 that parses to d; and
    a day that keeps a feature is always one of the plan's reference
    dates. *)
Theorem keep_idxs_nonempty_iff_occurrence
    (feats : list (option props)) (d : datetime) :
  micros d = 0 ->
  ordinal (utc_midnight 2000 1 1) <= ordinal d
    <= ordinal (utc_midnight 2099 12 31) ->
  (keep_idxs feats (strftime_ymd d) <> []
   <-> exists f v i h,
         In f feats /\ In v (values f) /\ v <> PNone
         /\ occurs_at (text_of v) i h /\ parse_date_ymd h = Some d)
  /\ (keep_idxs feats (strftime_ymd d) <> [] ->
      In d (reference_dates_of feats)).
Proof.
  intros Hmid Hrange. split.
  - rewrite keep_idxs_nonempty. split.
    + intros (f & Hf & Hm).
      apply target_day_iff_occurrence in Hm; [|assumption..].
      destruct Hm as (v & i & h & Hrest). exists f, v, i, h. tauto.
    + intros (f & v & i & h & Hf & Hrest). exists f. split; [exact Hf|].
      apply target_day_iff_occurrence; [assumption..|].
      exists v, i, h. exact Hrest.
  - intros Hkeep. apply keep_idxs_nonempty in Hkeep.
    destruct Hkeep as (f & Hf & Hm).
    apply in_reference_dates_of. exists f. split; [exact Hf|].
    now apply target_day_extracted.
Qed.

Lemma keep_idxs_nonempty_iff_occurrence_witness :
  In (utc_midnight 2024 5 2)
    (reference_dates_of [None; Some [("start"%string, PStr "2024-05-02")]]).
Proof.
  apply (proj2 (keep_idxs_nonempty_iff_occurrence
                  [None; Some [("start"%string, PStr "2024-05-02")]]
                  (utc_midnight 2024 5 2) eq_refl
                  ltac:(vm_compute; split; discriminate))).
  vm_compute. discriminate.
Defined.

(** X5: the script's chain for one satellite, with a period p > 0 and a
    chosen date from p days into 2000 up to the end of 2099.  When the
    resolver's date, written as YYYY-MM-DD, is the satellite's reference
    day and that day keeps some feature of the plan, the resolver's date is
    one of the plan's reference dates: a fallback day that is not a
    reference date keeps no feature. *)
Theorem kept_features_need_reference_date (feats : list (option props))
    (chosen : datetime) (p : Z) (day : string) :
  0 < p ->
  ordinal (utc_midnight 2000 1 1) + p <= ordinal chosen
    <= ordinal (utc_midnight 2099 12 31) ->
  reference_day chosen (reference_dates_of feats) p = Ok (Some day) ->
  keep_idxs feats day <> [] ->
  exists res,
    get_reference_date chosen (reference_dates_of feats) p = Ok (Some res)
    /\ day = strftime_ymd res
    /\ In res (reference_dates_of feats).
Proof.
  intros Hp Hchosen Hday Hkeep. assert (Hp0 : p <> 0) by lia.
  set (R := reference_dates_of feats) in *.
  unfold reference_day in Hday.
  destruct (get_reference_date chosen R p) as [[res|]|e] eqn:Hgrd;
    try discriminate Hday.
  cbn [bind] in Hday. injection Hday as <-.
  exists res. split; [reflexivity|]. split; [reflexivity|].
  assert (HR : R <> []) by (intros E; rewrite E in Hgrd; discriminate Hgrd).
  rewrite get_reference_date_unfold in Hgrd by assumption.
  destruct (filter (in_phase_b chosen p) R) as [|m ms] eqn:E.
  - destruct (fallback_rule_outcome chosen R p Hp HR)
      as (a & _ & Hshift & Hf).
    rewrite Hf in Hgrd. clear Hf.
    remember ((ordinal chosen - ordinal a) mod p) as shift eqn:Es.
    clear Es.
    destruct ((0 <? ordinal chosen - shift)
              && (ordinal chosen - shift <=? Calendar.MAXORDINAL))%bool;
      [|discriminate Hgrd].
    injection Hgrd as <-.
    apply keep_idxs_nonempty in Hkeep. destruct Hkeep as (f & Hf & Hm).
    apply in_reference_dates_of. exists f. split; [exact Hf|].
    apply target_day_extracted; [reflexivity | | exact Hm].
    cbn [ordinal]. lia.
  - rewrite <- E in Hgrd.
    assert (Hne : filter (in_phase_b chosen p) R <> [])
      by (rewrite E; discriminate).
    destruct (primary_rule_spec chosen _ Hne) as (res' & Hres & Hin & _).
    rewrite Hres in Hgrd. injection Hgrd as <-.
    apply in_matches in Hin; [|assumption]. tauto.
Qed.

Lemma kept_features_need_reference_date_witness :
  exists res,
    get_reference_date (utc_midnight 2024 1 5)
      (reference_dates_of [Some [("start"%string, PStr "2024-01-01")]]) 12
    = Ok (Some res)
    /\ "2024-01-01"%string = strftime_ymd res
    /\ In res
         (reference_dates_of [Some [("start"%string, PStr "2024-01-01")]]).
Proof.
  apply (kept_features_need_reference_date
           [Some [("start"%string, PStr "2024-01-01")]]
           (utc_midnight 2024 1 5) 12 "2024-01-01").
  - lia.
  - vm_compute. split; discriminate.
  - reflexivity.
  - vm_compute. discriminate.
Defined.

(** ** More on the resolver *)

Lemma in_phase_b_refl (d : datetime) (p : Z) :
  p <> 0 -> in_phase_b d p d = true.
Proof.
  intros Hp. unfold in_phase_b, date_diff_days.
  rewrite Z.sub_diag, Z.mod_0_l by assumption. reflexivity.
Qed.

Lemma in_phase_b_divide (a b : datetime) (p : Z) :
  p <> 0 -> (in_phase_b a p b = true <-> (p | ordinal a - ordinal b)).
Proof.
  intros Hp. unfold in_phase_b, date_diff_days.
  now rewrite Z.eqb_eq, Z.mod_divide.
Qed.

(** X6: a date of the reference list is its own reference date: for a
    period > 0, resolving a chosen date that is a member of R returns that
    very date. *)
Theorem get_reference_date_of_reference (r : datetime) (R : list datetime)
    (p : Z) :
  0 < p -> In r R -> get_reference_date r R p = Ok (Some r).
Proof.
  intros Hp Hr. assert (Hp0 : p <> 0) by lia.
  assert (HR : R <> []) by (intros ->; destruct Hr).
  assert (Hin : In r (filter (in_phase_b r p) R)).
  { apply filter_In. split; [exact Hr | now apply in_phase_b_refl]. }
  assert (Hne : filter (in_phase_b r p) R <> [])
    by (intros E; rewrite E in Hin; destruct Hin).
  rewrite get_reference_date_unfold by assumption.
  destruct (primary_rule_spec r _ Hne) as (res & Hres & Hres_in & Hle & _).
  destruct Hle as [Hres_le Hmax].
  { exists r. split; [exact Hin | apply dt_le_refl]. }
  assert (res = r).
  { apply dt_le_antisym; [exact Hres_le|].
    apply Hmax; [exact Hin | apply dt_le_refl]. }
  subst res.
  destruct (filter (in_phase_b r p) R); [congruence | exact Hres].
Qed.

Lemma get_reference_date_of_reference_witness :
  get_reference_date (utc_midnight 2024 1 13)
    [utc_midnight 2024 1 1; utc_midnight 2024 1 13; utc_midnight 2024 1 25]
    12
  = Ok (Some (utc_midnight 2024 1 13)).
Proof.
  apply (get_reference_date_of_reference (utc_midnight 2024 1 13)
           [utc_midnight 2024 1 1; utc_midnight 2024 1 13;
            utc_midnight 2024 1 25] 12).
  - lia.
  - right. left. reflexivity.
Defined.

Lemma primary_rule_same_elements (chosen : datetime)
    (ms ms' : list datetime) :
  ms <> [] -> (forall x, In x ms <-> In x ms') ->
  primary_rule chosen ms = primary_rule chosen ms'.
Proof.
  intros Hne Hsame.
  assert (Hne' : ms' <> []).
  { destruct ms as [|x tl]; [congruence|]. intros E.
    assert (Hx : In x ms') by (apply Hsame; now left).
    rewrite E in Hx. destruct Hx. }
  destruct (primary_rule_spec chosen ms Hne) as (r & -> & Hr & Hle & Hgt).
  destruct (primary_rule_spec chosen ms' Hne')
    as (r' & -> & Hr' & Hle' & Hgt').
  do 2 f_equal.
  destruct (existsb (fun x => dt_leb x chosen) ms) eqn:E.
  - apply existsb_exists in E. destruct E as (x & Hx & Hxc).
    destruct Hle as [Hrc Hmax]; [exists x; auto|].
    destruct Hle' as [Hrc' Hmax']; [exists x; split; [apply Hsame|]; auto|].
    apply dt_le_antisym.
    + apply Hmax'; [now apply Hsame | exact Hrc].
    + apply Hmax; [now apply Hsame | exact Hrc'].
  - assert (Hnone : forall x, In x ms -> ~ dt_le x chosen).
    { intros x Hx Hxc.
      assert (Hex : existsb (fun x => dt_leb x chosen) ms = true)
        by (apply existsb_exists; exists x; auto).
      congruence. }
    apply dt_le_antisym.
    + apply Hgt; [exact Hnone | now apply Hsame].
    + apply Hgt'; [|now apply Hsame].
      intros x Hx. apply Hnone. now apply Hsame.
Qed.

Lemma is_anchor_same_elements (chosen : datetime) (R R' : list datetime)
    (a : datetime) :
  (forall x, In x R <-> In x R') ->
  is_anchor chosen R a -> is_anchor chosen R' a.
Proof.
  intros Hsame (Ha & Hle & Hgt). split; [now apply Hsame|]. split.
  - intros (r & Hr & Hrc). destruct Hle as [Hac Hmax].
    { exists r. split; [now apply Hsame | exact Hrc]. }
    split; [exact Hac|]. intros x Hx. apply Hmax. now apply Hsame.
  - intros Hnone x Hx. apply Hgt; [|now apply Hsame].
    intros y Hy. apply Hnone. now apply Hsame.
Qed.

(** X7: the resolver depends only on which dates are in the reference
    list: two lists with the same members, in any order and with any
    repetitions, give the same outcome for every chosen date and every
    period (the zero period included, where both raise or both are
    empty). *)
Theorem get_reference_date_same_elements (chosen : datetime)
    (R R' : list datetime) (p : Z) :
  (forall x, In x R <-> In x R') ->
  get_reference_date chosen R p = get_reference_date chosen R' p.
Proof.
  intros Hsame.
  destruct R as [|x tl] eqn:ER.
  { destruct R' as [|y tl']; [reflexivity|].
    exfalso. apply (proj2 (Hsame y)). now left. }
  destruct R' as [|y tl'] eqn:ER'.
  { exfalso. apply (proj1 (Hsame x)). now left. }
  rewrite <- ER, <- ER' in *.
  assert (HR : R <> []) by (rewrite ER; discriminate).
  assert (HR' : R' <> []) by (rewrite ER'; discriminate).
  clear ER ER' x y tl tl'.
  destruct (Z.eq_dec p 0) as [->|Hp].
  - destruct R as [|x tl]; [congruence|].
    destruct R' as [|y tl']; [congruence|]. reflexivity.
  - rewrite !get_reference_date_unfold by assumption.
    assert (Hms : forall x, In x (filter (in_phase_b chosen p) R)
                            <-> In x (filter (in_phase_b chosen p) R')).
    { intros x. rewrite !filter_In, Hsame. reflexivity. }
    destruct (filter (in_phase_b chosen p) R) as [|m ms] eqn:E.
    + destruct (filter (in_phase_b chosen p) R') as [|m' ms'] eqn:E'.
      * destruct (is_anchor_exists chosen R HR) as (a & Ha).
        rewrite (fallback_rule_anchor chosen R p a) by assumption.
        rewrite (fallback_rule_anchor chosen R' p a); [reflexivity | | |];
          try assumption.
        now apply (is_anchor_same_elements chosen R R').
      * exfalso. apply (proj2 (Hms m')). now left.
    + rewrite <- E in *.
      assert (Hne : filter (in_phase_b chosen p) R <> [])
        by (rewrite E; discriminate).
      rewrite (primary_rule_same_elements chosen _ _ Hne Hms).
      destruct (filter (in_phase_b chosen p) R') as [|m' ms'] eqn:E';
        [|reflexivity].
      exfalso. apply (proj1 (Hms m)). rewrite E. now left.
Qed.

Lemma get_reference_date_same_elements_witness :
  get_reference_date (utc_midnight 2024 1 20)
    [utc_midnight 2024 1 13; utc_midnight 2024 1 1; utc_midnight 2024 1 13]
    12
  = get_reference_date (utc_midnight 2024 1 20)
      [utc_midnight 2024 1 1; utc_midnight 2024 1 13] 12.
Proof.
  apply (get_reference_date_same_elements (utc_midnight 2024 1 20)).
  intros x. simpl. tauto.
Defined.

Lemma congruent_gap (p n m : Z) :
  0 < p -> (p | n - m) -> m < n -> m + p <= n.
Proof.
  intros Hp [k Hk] Hlt. assert (0 < k) by nia. nia.
Qed.

(** X8: in the fallback (R not empty, period > 0, no date of R in phase
    with the chosen date) a returned date is at midnight UTC, 1 to p - 1
    days before the chosen day, in the same phase as the anchor and not in
    the phase of the chosen date; it is the latest day not after the chosen
    day that is in the anchor's phase. *)
Theorem get_reference_date_fallback_latest (chosen : datetime)
    (R : list datetime) (p : Z) (res : datetime) :
  0 < p ->
  (forall r, In r R -> same_phase chosen r p <> Ok true) ->
  get_reference_date chosen R p = Ok (Some res) ->
  exists anchor,
    is_anchor chosen R anchor
    /\ micros res = 0
    /\ ordinal chosen - p < ordinal res < ordinal chosen
    /\ same_phase res anchor p = Ok true
    /\ same_phase chosen res p = Ok false
    /\ forall n, n <= ordinal chosen -> (p | n - ordinal anchor) ->
                 n <= ordinal res.
Proof.
  intros Hp Hno Hres. assert (Hp0 : p <> 0) by lia.
  assert (HR : R <> []) by (intros ->; discriminate Hres).
  rewrite get_reference_date_unfold, no_matches in Hres by assumption.
  destruct (fallback_rule_outcome chosen R p Hp HR) as (a & Ha & Hshift & Hf).
  rewrite Hf in Hres. clear Hf.
  assert (Hnot : (ordinal chosen - ordinal a) mod p <> 0).
  { intros Hz. destruct Ha as (HaR & _). apply (Hno a HaR).
    apply same_phase_true_iff; [assumption|].
    unfold in_phase_b, date_diff_days. now apply Z.eqb_eq. }
  assert (Hdiv : (p | ordinal chosen - (ordinal chosen - ordinal a) mod p
                      - ordinal a)).
  { apply Z.mod_divide; [assumption|].
    replace (ordinal chosen - (ordinal chosen - ordinal a) mod p - ordinal a)
      with ((ordinal chosen - ordinal a)
            - (ordinal chosen - ordinal a) mod p) by ring.
    now apply sub_mod_in_phase. }
  remember ((ordinal chosen - ordinal a) mod p) as shift eqn:Es.
  destruct ((0 <? ordinal chosen - shift)
            && (ordinal chosen - shift <=? Calendar.MAXORDINAL))%bool;
    [|discriminate Hres].
  injection Hres as <-. cbn [ordinal micros].
  exists a. split; [exact Ha|]. split; [reflexivity|].
  split; [lia|]. split; [|split].
  - apply same_phase_true_iff; [assumption|].
    now apply in_phase_b_divide.
  - rewrite same_phase_ok by assumption. f_equal.
    unfold in_phase_b, date_diff_days. cbn [ordinal]. apply Z.eqb_neq.
    replace (ordinal chosen - (ordinal chosen - shift)) with shift by ring.
    rewrite Z.mod_small by lia. lia.
  - intros n Hn Hdivn.
    destruct (Z_le_gt_dec n (ordinal chosen - shift)) as [Hle|Hgt];
      [exact Hle|]. exfalso.
    assert (Hd : (p | n - (ordinal chosen - shift))).
    { replace (n - (ordinal chosen - shift))
        with ((n - ordinal a) - (ordinal chosen - shift - ordinal a))
        by ring.
      now apply Z.divide_sub_r. }
    pose proof (congruent_gap p n (ordinal chosen - shift) Hp Hd ltac:(lia)).
    lia.
Qed.

Lemma get_reference_date_fallback_latest_witness :
  exists anchor,
    is_anchor (utc_midnight 2024 1 20) [utc_midnight 2024 1 1] anchor
    /\ micros (utc_midnight 2024 1 13) = 0
    /\ ordinal (utc_midnight 2024 1 20) - 12
       < ordinal (utc_midnight 2024 1 13) < ordinal (utc_midnight 2024 1 20)
    /\ same_phase (utc_midnight 2024 1 13) anchor 12 = Ok true
    /\ same_phase (utc_midnight 2024 1 20) (utc_midnight 2024 1 13) 12
       = Ok false
    /\ forall n, n <= ordinal (utc_midnight 2024 1 20) ->
                 (12 | n - ordinal anchor) ->
                 n <= ordinal (utc_midnight 2024 1 13).
Proof.
  apply (get_reference_date_fallback_latest (utc_midnight 2024 1 20)
           [utc_midnight 2024 1 1] 12 (utc_midnight 2024 1 13)).
  - lia.
  - intros r [<-|[]] Hph. vm_compute in Hph. discriminate Hph.
  - reflexivity.
Defined.

(** X9: with a period > 0 and a chosen date within the calendar, the
    resolver fails in one way only: [OverflowError], in the fallback, when
    the shift reaches back before 0001-01-01, that is when the chosen
    date's ordinal is at most [(chosen - anchor) mod p]. *)
Theorem get_reference_date_raise_iff (chosen : datetime)
    (R : list datetime) (p : Z) (e : exn) :
  0 < p -> ordinal chosen <= Calendar.MAXORDINAL ->
  (get_reference_date chosen R p = Raise e
   <-> e = OverflowError
       /\ (forall r, In r R -> same_phase chosen r p <> Ok true)
       /\ exists anchor,
            is_anchor chosen R anchor
            /\ ordinal chosen <= (ordinal chosen - ordinal anchor) mod p).
Proof.
  intros Hp Hmax. assert (Hp0 : p <> 0) by lia.
  destruct R as [|x tl] eqn:ER.
  { split; [discriminate|]. intros (_ & _ & a & (Ha & _) & _). destruct Ha. }
  rewrite <- ER in *. assert (HR : R <> []) by (rewrite ER; discriminate).
  clear ER x tl.
  rewrite get_reference_date_unfold by assumption.
  destruct (filter (in_phase_b chosen p) R) as [|m ms] eqn:E.
  - assert (Hno : forall r, In r R -> same_phase chosen r p <> Ok true).
    { intros r Hr Hph.
      assert (Hin : In r (filter (in_phase_b chosen p) R))
        by (apply in_matches; auto).
      rewrite E in Hin. destruct Hin. }
    destruct (fallback_rule_outcome chosen R p Hp HR)
      as (a & Ha & Hshift & ->).
    remember ((ordinal chosen - ordinal a) mod p) as shift eqn:Es.
    destruct (0 <? ordinal chosen - shift) eqn:E1.
    + assert (E2 : (ordinal chosen - shift <=? Calendar.MAXORDINAL) = true)
        by lia.
      rewrite E2. cbn [andb]. split; [discriminate|].
      intros (_ & _ & a' & Ha' & Hle).
      rewrite (is_anchor_unique chosen R a' a Ha' Ha), <- Es in Hle. lia.
    + cbn [andb]. split.
      * intros [= <-]. split; [reflexivity|]. split; [exact Hno|].
        exists a. split; [exact Ha|]. rewrite <- Es. lia.
      * intros (-> & _). reflexivity.
  - rewrite <- E.
    assert (Hne : filter (in_phase_b chosen p) R <> [])
      by (rewrite E; discriminate).
    destruct (primary_rule_spec chosen _ Hne) as (res & -> & Hin & _).
    split; [discriminate|]. intros (_ & Hno & _). exfalso.
    apply in_matches in Hin; [|assumption]. destruct Hin as [Hin Hph].
    now apply (Hno res).
Qed.

Lemma get_reference_date_raise_iff_witness :
  get_reference_date (utc_midnight 1 1 1) [utc_midnight 2024 1 2] 12
  = Raise OverflowError
  <-> OverflowError = OverflowError
      /\ (forall r, In r [utc_midnight 2024 1 2] ->
                    same_phase (utc_midnight 1 1 1) r 12 <> Ok true)
      /\ exists anchor,
           is_anchor (utc_midnight 1 1 1) [utc_midnight 2024 1 2] anchor
           /\ ordinal (utc_midnight 1 1 1)
              <= (ordinal (utc_midnight 1 1 1) - ordinal anchor) mod 12.
Proof.
  apply (get_reference_date_raise_iff (utc_midnight 1 1 1)
           [utc_midnight 2024 1 2] 12 OverflowError).
  - lia.
  - vm_compute. discriminate.
Defined.

(** X10: for a period > 0, being in the same phase is an equivalence on
    datetimes: reflexive, symmetric and transitive; and moving either date
    by a whole number of periods does not change the answer. *)
Theorem same_phase_equivalence (a b c : datetime) (p k : Z) :
  0 < p ->
  same_phase a a p = Ok true
  /\ same_phase a b p = same_phase b a p
  /\ (same_phase a b p = Ok true -> same_phase b c p = Ok true ->
      same_phase a c p = Ok true)
  /\ same_phase (mkDatetime (ordinal a + k * p) (micros a)) b p
     = same_phase a b p.
Proof.
  intros Hp. assert (Hp0 : p <> 0) by lia.
  split; [|split; [|split]].
  - rewrite same_phase_ok by assumption. f_equal.
    now apply in_phase_b_refl.
  - rewrite !same_phase_ok by assumption. f_equal.
    apply eq_true_iff_eq. rewrite !in_phase_b_divide by assumption.
    replace (ordinal b - ordinal a) with (- (ordinal a - ordinal b)) by ring.
    split; intros Hd.
    + apply (proj2 (Z.divide_opp_r _ _)). exact Hd.
    + apply (proj1 (Z.divide_opp_r _ _)). exact Hd.
  - rewrite !same_phase_true_iff, !in_phase_b_divide by assumption.
    intros Hab Hbc.
    replace (ordinal a - ordinal c)
      with ((ordinal a - ordinal b) + (ordinal b - ordinal c)) by ring.
    now apply Z.divide_add_r.
  - rewrite !same_phase_ok by assumption. f_equal.
    unfold in_phase_b, date_diff_days. cbn [ordinal].
    replace (ordinal a + k * p - ordinal b)
      with (ordinal a - ordinal b + k * p) by ring.
    now rewrite Z.mod_add.
Qed.

Lemma same_phase_equivalence_witness :
  same_phase (utc_midnight 2024 1 25) (utc_midnight 2024 1 25) 12 = Ok true
  /\ same_phase (utc_midnight 2024 1 25) (utc_midnight 2024 1 1) 12
     = same_phase (utc_midnight 2024 1 1) (utc_midnight 2024 1 25) 12
  /\ (same_phase (utc_midnight 2024 1 25) (utc_midnight 2024 1 1) 12
      = Ok true ->
      same_phase (utc_midnight 2024 1 1) (utc_midnight 2024 1 13) 12
      = Ok true ->
      same_phase (utc_midnight 2024 1 25) (utc_midnight 2024 1 13) 12
      = Ok true)
  /\ same_phase
       (mkDatetime (ordinal (utc_midnight 2024 1 25) + 3 * 12)
          (micros (utc_midnight 2024 1 25)))
       (utc_midnight 2024 1 1) 12
     = same_phase (utc_midnight 2024 1 25) (utc_midnight 2024 1 1) 12.
Proof.
  apply (same_phase_equivalence (utc_midnight 2024 1 25)
           (utc_midnight 2024 1 1) (utc_midnight 2024 1 13) 12 3).
  lia.
Defined.

(** ** The reference dates as a set, and the layers of the map *)

Lemma sorted_nodup_same_elements (l1 l2 : list datetime) :
  StronglySorted dt_le l1 -> StronglySorted dt_le l2 ->
  NoDup l1 -> NoDup l2 ->
  (forall x, In x l1 <-> In x l2) -> l1 = l2.
Proof.
  intros Hs1 Hs2 Hn1 Hn2 Hsame.
  apply sorted_perm_unique; try assumption.
  now apply NoDup_Permutation.
Qed.

(** X11: the reference dates of a plan depend only on which dates its
    features hold: two feature lists in which the same dates are found, in
    whatever order and however often, have the same reference-date list. *)
Theorem reference_dates_of_same_dates (feats feats' : list (option props)) :
  (forall d,
      (exists f, In f feats /\ In d (extract_dates_from_properties f))
      <-> (exists f, In f feats' /\ In d (extract_dates_from_properties f)))
  -> reference_dates_of feats = reference_dates_of feats'.
Proof.
  intros Hsame.
  assert (Hnd : forall fs, NoDup (reference_dates_of fs)).
  { intros fs. unfold reference_dates_of, py_set.
    eapply Permutation_NoDup; [apply py_sort_perm | apply NoDup_nodup]. }
  apply sorted_nodup_same_elements; try apply Hnd;
    try (unfold reference_dates_of; apply py_sort_sorted).
  intros x. rewrite !in_reference_dates_of. apply Hsame.
Qed.

Lemma reference_dates_of_same_dates_witness :
  reference_dates_of
    [Some [("a"%string, PStr "2024-01-13"); ("b"%string, PStr "2024-01-01")]]
  = reference_dates_of
      [Some [("x"%string, PStr "2024-01-01 2024-01-13")];
       Some [("y"%string, PStr "2024-01-01")]].
Proof.
  apply reference_dates_of_same_dates.
  intros d. split; intros (f & Hf & Hd).
  - destruct Hf as [<-|[]].
    exists (Some [("x"%string, PStr "2024-01-01 2024-01-13")]).
    split; [now left|].
    vm_compute in Hd. vm_compute. tauto.
  - exists (Some [("a"%string, PStr "2024-01-13");
                  ("b"%string, PStr "2024-01-01")]).
    split; [now left|].
    destruct Hf as [<-|[<-|[]]]; vm_compute in Hd; vm_compute; tauto.
Defined.

Lemma filter_filter_andb {A : Type} (f g : A -> bool) (l : list A) :
  filter g (filter f l) = filter (fun x => f x && g x)%bool l.
Proof.
  induction l as [|x tl IH]; simpl; [reflexivity|].
  destruct (f x); simpl; [|exact IH].
  destruct (g x); now rewrite IH.
Qed.

Lemma filter_all_false {A : Type} (f : A -> bool) (l : list A) :
  (forall x, f x = false) -> filter f l = [].
Proof.
  intros Hf. induction l as [|x tl IH]; simpl; [reflexivity|].
  now rewrite Hf.
Qed.

Lemma no_target_in_empty_day (p : option props) :
  feature_has_target_date p EmptyString = false.
Proof.
  apply not_true_iff_false. intros Hf.
  apply feature_has_target_date_occurs in Hf.
  destruct Hf as (v & i & _ & _ & _ & Hshape & _). discriminate Hshape.
Qed.

Section LayerProperties.

Context {G : Type} `{Geometry G}.

Lemma satellite_step_layer (aoi : option (list G)) (st : map_state G)
    (sat : satellite G) :
  satellite_step aoi st sat
  = match layer_features aoi sat with
    | [] => st
    | f :: tl =>
        mkMapState
          (match aoi_rows aoi with
           | Some _ =>
               union_onto (coverage_union st)
                 [unary_union (map geometry (f :: tl))]
           | None => coverage_union st
           end)
          (layers st ++ [(sat_name sat, f :: tl)])
    end.
Proof.
  unfold satellite_step, layer_features.
  destruct (ref_day sat) as [day|]; [|reflexivity].
  destruct (String.eqb_spec day EmptyString) as [->|Hday].
  { cbn [orb]. rewrite filter_all_false; [reflexivity|].
    intros f. now rewrite no_target_in_empty_day. }
  cbn [orb].
  destruct (plan sat) as [|f0 fs] eqn:Eplan; [reflexivity|].
  rewrite <- Eplan. clear Eplan f0 fs.
  destruct (aoi_rows aoi) as [rows|].
  - rewrite <- filter_filter_andb.
    destruct (filter (fun f => feature_has_target_date (properties f) day)
                (plan sat)) as [|f1 sub1] eqn:E1; [reflexivity|].
    destruct (filter (fun f => intersects (geometry f) (unary_union rows))
                (f1 :: sub1)) as [|f2 sub2]; [reflexivity|].
    unfold union_onto. cbn [fold_left].
    now destruct (coverage_union st).
  - replace (filter (fun f => feature_has_target_date (properties f) day
                              && true) (plan sat))
      with (filter (fun f => feature_has_target_date (properties f) day)
              (plan sat)).
    2:{ apply filter_ext. intros f. now rewrite andb_true_r. }
    destruct (filter (fun f => feature_has_target_date (properties f) day)
                (plan sat)) as [|f1 sub1]; reflexivity.
Qed.

Lemma union_onto_app (cu : option G) (gs gs' : list G) :
  union_onto cu (gs ++ gs') = union_onto (union_onto cu gs) gs'.
Proof. unfold union_onto. apply fold_left_app. Qed.

Lemma satellite_loop_from (aoi : option (list G))
    (sats : list (satellite G)) (st : map_state G) :
  layers (fold_left (satellite_step aoi) sats st)
  = layers st ++ expected_layers aoi sats
  /\ coverage_union (fold_left (satellite_step aoi) sats st)
     = match aoi_rows aoi with
       | Some _ =>
           union_onto (coverage_union st)
             (map (fun l => unary_union (map geometry (snd l)))
                (expected_layers aoi sats))
       | None => coverage_union st
       end.
Proof.
  revert st. induction sats as [|sat tl IH]; intros st.
  - cbn. rewrite app_nil_r. split; [reflexivity|].
    now destruct (aoi_rows aoi).
  - cbn [fold_left]. destruct (IH (satellite_step aoi st sat)) as [IHl IHc].
    rewrite IHl, IHc. clear IHl IHc.
    unfold expected_layers at 2 4. cbn [flat_map].
    fold (expected_layers aoi tl).
    rewrite satellite_step_layer.
    destruct (layer_features aoi sat) as [|f fs].
    + split; reflexivity.
    + cbn [layers coverage_union]. split.
      * now rewrite <- app_assoc.
      * destruct (aoi_rows aoi); [|reflexivity].
        rewrite map_app, union_onto_app. reflexivity.
Qed.

(** X12: the layers the loop adds to the map are, in the order of the
    satellites, one layer for each satellite that has features carrying
    its reference day and (with a non-empty AOI) intersecting the AOI, and
    the layer holds exactly those features; a satellite without a
    reference day, with an empty plan or with no such feature adds
    nothing. *)
Theorem satellite_loop_layers (aoi : option (list G))
    (sats : list (satellite G)) :
  layers (satellite_loop aoi sats) = expected_layers aoi sats.
Proof.
  unfold satellite_loop.
  now destruct (satellite_loop_from aoi sats (mkMapState None [])) as [-> _].
Qed.

(** X13: the coverage union kept by the loop is the union, from left to
    right, of the unions of the layers drawn, when a non-empty AOI is
    present; without one (no AOI, or an AOI frame without rows) it stays
    None whatever is drawn. *)
Theorem satellite_loop_coverage_union (aoi : option (list G))
    (sats : list (satellite G)) :
  coverage_union (satellite_loop aoi sats)
  = match aoi_rows aoi with
    | Some _ =>
        union_onto None
          (map (fun l => unary_union (map geometry (snd l)))
             (layers (satellite_loop aoi sats)))
    | None => None
    end.
Proof.
  unfold satellite_loop.
  destruct (satellite_loop_from aoi sats (mkMapState None [])) as [-> ->].
  reflexivity.
Qed.

End LayerProperties.

(** ** Rows selected by position *)

Lemma map_snd_filter_combine {A : Type} (g : A -> bool) (rows : list A)
    (start : nat) :
  map snd (filter (fun entry : nat * A => g (snd entry))
             (combine (seq start (List.length rows)) rows))
  = filter g rows.
Proof.
  revert start. induction rows as [|r tl IH]; intros start;
    [reflexivity|].
  cbn [List.length seq combine filter snd].
  destruct (g r); cbn [map snd]; now rewrite IH.
Qed.

(** X14: selecting the rows of a plan by [keep_idxs], as the script does
    with [feat_idx.isin(keep_idxs)], gives exactly the features whose
    properties carry the day, in plan order. *)
Theorem rows_isin_keep_idxs {G : Type} (plan : list (feature G))
    (day : string) :
  rows_isin (keep_idxs (map properties plan) day) plan
  = filter (fun f => feature_has_target_date (properties f) day) plan.
Proof.
  unfold rows_isin.
  rewrite <- (map_snd_filter_combine
                (fun f => feature_has_target_date (properties f) day)
                plan 0).
  f_equal. apply filter_ext_in. intros [i f] Hin. cbn [fst snd].
  apply in_combine_seq in Hin. rewrite Nat.sub_0_r in Hin.
  destruct Hin as [_ Hn].
  apply eq_true_iff_eq. rewrite existsb_exists. split.
  - intros (j & Hj & Heq). apply Nat.eqb_eq in Heq. subst j.
    apply in_keep_idxs in Hj. destruct Hj as (q & Hq & Hm).
    rewrite nth_error_map, Hn in Hq. cbn in Hq. congruence.
  - intros Hm. exists i. split; [|apply Nat.eqb_refl].
    apply in_keep_idxs. exists (properties f). split; [|exact Hm].
    now rewrite nth_error_map, Hn.
Qed.

(** X15: the resolver never fails with [IndexError] or [ValueError],
    whatever the chosen date, the list and the period: [matches[0]] is
    only read on a non-empty list and [min] is only taken of a non-empty
    list. *)
Theorem get_reference_date_no_index_error (chosen : datetime)
    (R : list datetime) (p : Z) :
  get_reference_date chosen R p <> Raise IndexError
  /\ get_reference_date chosen R p <> Raise ValueError.
Proof.
  assert (Hgoal : forall e, e = IndexError \/ e = ValueError ->
                            get_reference_date chosen R p <> Raise e).
  { intros e He.
    destruct R as [|x tl] eqn:ER; [discriminate|].
    rewrite <- ER. assert (HR : R <> []) by (rewrite ER; discriminate).
    clear ER x tl.
    destruct (Z.eq_dec p 0) as [->|Hp].
    - destruct R as [|x tl]; [congruence|].
      cbn. destruct He as [->| ->]; discriminate.
    - rewrite get_reference_date_unfold by assumption.
      destruct (filter (in_phase_b chosen p) R) as [|m ms] eqn:E.
      + unfold fallback_rule.
        destruct (py_min_spec R HR) as (m & -> & _). cbn [bind].
        rewrite py_mod_ok by assumption. cbn [bind]. unfold sub_days.
        match goal with
        | |- context [if ?c then _ else _] => destruct c
        end; cbn [bind]; destruct He as [->| ->]; discriminate.
      + destruct (primary_rule_spec chosen (m :: ms)) as (res & -> & _);
          [discriminate|].
        discriminate. }
  split; apply Hgoal; auto.
Qed.
